(** * Menu interaction state machine (headlessui, React binding)

    A shallow embedding of the reducer of
    [packages/@headlessui-react/src/components/menu/menu.tsx]:
    the open/closed state, the registered item collection, the active index,
    the type-ahead query, and the context guard of the sub-components.

    JavaScript objects are compared by reference ([===], [indexOf]).  The
    objects the reducer handles are never mutated after their creation, so an
    object is carried as its address together with its contents, and every
    object literal of the source allocates a new address.  The one mutable
    object, the [dataRef] bag of an item, lives in a store that the reducer
    only reads. *)

From Stdlib Require Import ZArith String Ascii Lia.
From stdpp Require Import base tactics option list strings.

Local Open Scope Z_scope.

(** ** Object references and allocation *)

Definition addr := nat.

(** An immutable heap object: where it lives, and what it holds. *)
Record Obj (A : Type) := mkObj { addr_of : addr; val : A }.
Arguments mkObj {A} _ _.
Arguments addr_of {A} _.
Arguments val {A} _.

(** [x === y] on object references. *)
Definition same_object {A} (x y : Obj A) : bool :=
  Nat.eqb (addr_of x) (addr_of y).

(** Computations that allocate: the state is the next free address. *)
Definition Alloc (A : Type) : Type := addr -> A * addr.

Definition ret {A} (a : A) : Alloc A := fun h => (a, h).

Definition bind {A B} (m : Alloc A) (k : A -> Alloc B) : Alloc B :=
  fun h => let (a, h') := m h in k a h'.

(** An object literal [{ ... }]. *)
Definition new {A} (v : A) : Alloc (Obj A) :=
  fun h => (mkObj h v, S h).

Notation "'let*' x ':=' m 'in' k" := (bind m (fun x => k))
  (at level 10, x name, m at level 100, k at level 200).

(** ** JavaScript values and array helpers *)

(** A value of type [T | undefined | null]. *)
Inductive Nullable (A : Type) :=
  | Null
  | Undefined
  | Ref (a : A).
Arguments Null {A}.
Arguments Undefined {A}.
Arguments Ref {A} _.

(** [arr[i]]: [undefined] outside the array. *)
Definition nth_Z {A} (l : list A) (i : Z) : option A :=
  if i <? 0 then None else l !! Z.to_nat i.

(** [arr.findIndex(p)]: the first index whose element satisfies [p], or -1. *)
Definition findIndex {A} (p : A -> bool) (l : list A) : Z :=
  match list_find (fun x => p x = true) l with
  | Some (i, _) => Z.of_nat i
  | None => -1
  end.

(** [arr.indexOf(v)] on an array of object references (no holes, no
    [undefined] or [null] entries): strict equality is reference equality. *)
Definition indexOf {A} (l : list (Obj A)) (v : Nullable (Obj A)) : Z :=
  match v with
  | Ref o => findIndex (same_object o) l
  | Undefined | Null => -1
  end.

(** [arr.splice(idx, 1)] for [idx] a non-negative index, as [findIndex]
    returns it. *)
Definition splice1 {A} (l : list A) (idx : Z) : list A :=
  delete (Z.to_nat idx) l.

(** [s.startsWith(q)]. *)
Definition startsWith (s q : string) : bool := String.prefix q s.

(** [s.toLowerCase()], on the ASCII letters. *)
Definition lower_ascii (c : ascii) : ascii :=
  let n := nat_of_ascii c in
  if (Nat.leb 65 n && Nat.leb n 90)%bool then ascii_of_nat (n + 32) else c.

Fixpoint toLowerCase (s : string) : string :=
  match s with
  | EmptyString => EmptyString
  | String c s' => String (lower_ascii c) (toLowerCase s')
  end.

(** ** Data model *)

Module MenuStates.
Inductive t := Open | Closed.
End MenuStates.

(** The address of a [MutableRefObject]. *)
Definition loc := nat.

(** [dataRef.current]: [{ textValue?: string; disabled: boolean }]. *)
Record ItemData := mkItemData { textValue : option string; disabled : bool }.

(** The contents of every item bag at the time the reducer runs. *)
Definition Store := loc -> ItemData.

Module Item.
Record t := mk { id : string; dataRef : loc }.
End Item.

Record StateDefinition := mkState {
  menuState : MenuStates.t;
  buttonRef : loc;
  itemsRef : loc;
  items : list (Obj Item.t);
  searchQuery : string;
  activeItemIndex : option Z
}.

Module Focus.
Inductive t :=
  | First
  | Previous
  | Next
  | Last
  | Specific (id : string)
  | Nothing.
End Focus.

Module ActionTypes.
Inductive t :=
  | OpenMenu
  | CloseMenu
  | GoToItem (focus : Focus.t)
  | Search (value : string)
  | ClearSearch
  | RegisterItem (id : string) (dataRef : loc)
  | UnregisterItem (id : string).
End ActionTypes.

(** The second argument of [calculateActiveIndex]. *)
Record Resolvers (T : Type) := mkResolvers {
  resolveItems : unit -> list T;
  resolveActiveIndex : unit -> option Z;
  resolveId : T -> string;
  resolveDisabled : T -> bool
}.
Arguments mkResolvers {T} _ _ _ _.
Arguments resolveItems {T} _ _.
Arguments resolveActiveIndex {T} _ _.
Arguments resolveId {T} _ _.
Arguments resolveDisabled {T} _ _.

(** ** The item bags

    An item writes its own bag from its effects; the reducer never does. *)

Definition write (σ : Store) (bag : loc) (d : ItemData) : Store :=
  fun l => if Nat.eqb l bag then d else σ l.

(** [bag.current.disabled = disabled] *)
Definition Item_disabled_effect (σ : Store) (bag : loc) (d : bool) : Store :=
  write σ bag (mkItemData (textValue (σ bag)) d).

(** [bag.current.textValue =
      document.getElementById(id)?.textContent?.toLowerCase()],
    where [textContent] is [document.getElementById(id)?.textContent]. *)
Definition Item_textValue_effect (σ : Store) (bag : loc)
    (textContent : option string) : Store :=
  write σ bag (mkItemData (option_map toLowerCase textContent) (disabled (σ bag))).

(** ** The reducers *)

Module reducers.
Section WithEnvironment.

(** [calculateActiveIndex] is imported from [utils/calculate-active-index];
    the reducers are written against any such function. *)
Variable calculateActiveIndex :
  Focus.t -> Resolvers (Obj Item.t) -> option Z.

(** The item bags as they are when the action is dispatched. *)
Variable σ : Store.

Definition CloseMenu (state : Obj StateDefinition)
  : Alloc (Obj StateDefinition) :=
  match menuState (val state) with
  | MenuStates.Closed => ret state
  | MenuStates.Open =>
      new {| menuState := MenuStates.Closed;
             buttonRef := buttonRef (val state);
             itemsRef := itemsRef (val state);
             items := items (val state);
             searchQuery := searchQuery (val state);
             activeItemIndex := None |}
  end.

Definition OpenMenu (state : Obj StateDefinition)
  : Alloc (Obj StateDefinition) :=
  match menuState (val state) with
  | MenuStates.Open => ret state
  | MenuStates.Closed =>
      new {| menuState := MenuStates.Open;
             buttonRef := buttonRef (val state);
             itemsRef := itemsRef (val state);
             items := items (val state);
             searchQuery := searchQuery (val state);
             activeItemIndex := activeItemIndex (val state) |}
  end.

(** The resolvers [GoToItem] hands to [calculateActiveIndex]. *)
Definition resolvers (state : Obj StateDefinition) : Resolvers (Obj Item.t) :=
  {| resolveItems := fun _ => items (val state);
     resolveActiveIndex := fun _ => activeItemIndex (val state);
     resolveId := fun item => Item.id (val item);
     resolveDisabled := fun item => disabled (σ (Item.dataRef (val item))) |}.

Definition GoToItem (state : Obj StateDefinition) (focus : Focus.t)
  : Alloc (Obj StateDefinition) :=
  let activeItemIndex' := calculateActiveIndex focus (resolvers state) in
  if (String.eqb (searchQuery (val state)) ""
      && bool_decide (activeItemIndex (val state) = activeItemIndex'))%bool
  then ret state
  else
    new {| menuState := menuState (val state);
           buttonRef := buttonRef (val state);
           itemsRef := itemsRef (val state);
           items := items (val state);
           searchQuery := "";
           activeItemIndex := activeItemIndex' |}.

(** The callback of [findIndex] in [Search]: an absent [textValue] makes
    the optional call [undefined], which is falsy. *)
Definition Search_matches (searchQuery : string) (item : Obj Item.t) : bool :=
  (match textValue (σ (Item.dataRef (val item))) with
   | Some t => startsWith t searchQuery
   | None => false
   end
   && negb (disabled (σ (Item.dataRef (val item)))))%bool.

Definition Search (state : Obj StateDefinition) (value : string)
  : Alloc (Obj StateDefinition) :=
  let searchQuery' := String.append (searchQuery (val state)) value in
  let match_ := findIndex (Search_matches searchQuery') (items (val state)) in
  if ((match_ =? -1)
      || bool_decide (activeItemIndex (val state) = Some match_))%bool
  then
    new {| menuState := menuState (val state);
           buttonRef := buttonRef (val state);
           itemsRef := itemsRef (val state);
           items := items (val state);
           searchQuery := searchQuery';
           activeItemIndex := activeItemIndex (val state) |}
  else
    new {| menuState := menuState (val state);
           buttonRef := buttonRef (val state);
           itemsRef := itemsRef (val state);
           items := items (val state);
           searchQuery := searchQuery';
           activeItemIndex := Some match_ |}.

Definition ClearSearch (state : Obj StateDefinition)
  : Alloc (Obj StateDefinition) :=
  if String.eqb (searchQuery (val state)) "" then ret state
  else
    new {| menuState := menuState (val state);
           buttonRef := buttonRef (val state);
           itemsRef := itemsRef (val state);
           items := items (val state);
           searchQuery := "";
           activeItemIndex := activeItemIndex (val state) |}.

Definition RegisterItem (state : Obj StateDefinition)
    (id : string) (dataRef : loc) : Alloc (Obj StateDefinition) :=
  let* item := new {| Item.id := id; Item.dataRef := dataRef |} in
  new {| menuState := menuState (val state);
         buttonRef := buttonRef (val state);
         itemsRef := itemsRef (val state);
         items := items (val state) ++ [item];
         searchQuery := searchQuery (val state);
         activeItemIndex := activeItemIndex (val state) |}.

Definition UnregisterItem (state : Obj StateDefinition) (id : string)
  : Alloc (Obj StateDefinition) :=
  let nextItems := items (val state) in
  let currentActiveItem : Nullable (Obj Item.t) :=
    match activeItemIndex (val state) with
    | Some i =>
        match nth_Z nextItems i with
        | Some item => Ref item
        | None => Undefined
        end
    | None => Null
    end in
  let idx := findIndex (fun a => String.eqb (Item.id (val a)) id) nextItems in
  let nextItems := if idx =? -1 then nextItems else splice1 nextItems idx in
  new {| menuState := menuState (val state);
         buttonRef := buttonRef (val state);
         itemsRef := itemsRef (val state);
         items := nextItems;
         searchQuery := searchQuery (val state);
         activeItemIndex :=
           if bool_decide (activeItemIndex (val state) = Some idx) then None
           else
             match currentActiveItem with
             | Null => None
             | _ => Some (indexOf nextItems currentActiveItem)
             end |}.

End WithEnvironment.
End reducers.

(** [match(action.type, reducers, state, action)] *)
Definition stateReducer
    (calculateActiveIndex : Focus.t -> Resolvers (Obj Item.t) -> option Z)
    (σ : Store) (state : Obj StateDefinition) (action : ActionTypes.t)
  : Alloc (Obj StateDefinition) :=
  match action with
  | ActionTypes.OpenMenu => reducers.OpenMenu state
  | ActionTypes.CloseMenu => reducers.CloseMenu state
  | ActionTypes.GoToItem focus =>
      reducers.GoToItem calculateActiveIndex σ state focus
  | ActionTypes.Search value => reducers.Search σ state value
  | ActionTypes.ClearSearch => reducers.ClearSearch state
  | ActionTypes.RegisterItem id dataRef => reducers.RegisterItem state id dataRef
  | ActionTypes.UnregisterItem id => reducers.UnregisterItem state id
  end.

(** ** The context guard *)

(** What a call does: return a value, or throw an [Error] with a message. *)
Inductive Outcome (A : Type) :=
  | Returns (a : A)
  | Throws (message : string).
Arguments Returns {A} _.
Arguments Throws {A} _.

(** [Menu.name], [Button.name], [Items.name], [Item.name]: the names the
    function declarations and named function expressions give. *)
Definition Menu_name : string := "Menu".
Definition Button_name : string := "Button".
Definition Items_name : string := "Items".
Definition Item_name : string := "Item".

(** [useMenuContext(component)], where [context] is what
    [useContext(MenuContext)] returned. *)
Definition useMenuContext {C} (context : option C) (component : string)
  : Outcome C :=
  match context with
  | None =>
      Throws ("<" +:+ component +:+ " /> is missing a parent <"
                  +:+ Menu_name +:+ " /> component.")
  | Some c => Returns c
  end.

(** The argument each sub-component passes: [[Menu.name, X.name].join('.')]. *)
Definition component_of (name : string) : string :=
  String.concat "." [Menu_name; name].

(** ** The initial state and sequences of dispatches *)

(** The state [Menu] hands to [useReducer]; the two [createRef()] calls give
    the two handles. *)
Definition initial_state (buttonRef itemsRef : loc) : StateDefinition :=
  {| menuState := MenuStates.Closed;
     buttonRef := buttonRef;
     itemsRef := itemsRef;
     items := [];
     searchQuery := "";
     activeItemIndex := None |}.

(** React hands the dispatched actions to the reducer in order, each on the
    state the previous one returned; the bags may have been rewritten in
    between, so every action comes with the bags of its time. *)
Fixpoint dispatch_all
    (calculateActiveIndex : Focus.t -> Resolvers (Obj Item.t) -> option Z)
    (state : Obj StateDefinition) (events : list (Store * ActionTypes.t))
  : Alloc (Obj StateDefinition) :=
  match events with
  | [] => ret state
  | (σ, action) :: rest =>
      let* state' := stateReducer calculateActiveIndex σ state action in
      dispatch_all calculateActiveIndex state' rest
  end.

(** ** What the components render from the state *)

(** Reading a property of a value that may be [undefined]: the value read,
    or the engine's [TypeError]. *)
Inductive Read (A : Type) :=
  | Got (a : A)
  | TypeError.
Arguments Got {A} _.
Arguments TypeError {A}.

(** [Item]: [state.activeItemIndex !== null
             ? state.items[state.activeItemIndex].id === id : false] *)
Definition Item_active (state : StateDefinition) (id : string) : Read bool :=
  match activeItemIndex state with
  | Some i =>
      match nth_Z (items state) i with
      | Some item => Got (String.eqb (Item.id (val item)) id)
      | None => TypeError
      end
  | None => Got false
  end.

(** [Items]: ['aria-activedescendant':
      state.activeItemIndex === null
        ? undefined : state.items[state.activeItemIndex]?.id] *)
Definition Items_aria_activedescendant (state : StateDefinition)
  : option string :=
  match activeItemIndex state with
  | None => None
  | Some i =>
      match nth_Z (items state) i with
      | Some item => Some (Item.id (val item))
      | None => None
      end
  end.

(** ** The event handlers *)

(** [Keys] is imported from [../keyboard]; the handlers are written against
    any table of key names. *)
Module Keys.
Record t := mk {
  Space : string;
  Enter : string;
  Escape : string;
  ArrowUp : string;
  ArrowDown : string;
  Home : string;
  End_ : string;
  PageUp : string;
  PageDown : string;
  Tab : string
}.
End Keys.

(** Whose [disposables] a deferred callback is registered with: the
    component's own ([useDisposables()] bound to [d]), the type-ahead ones
    ([searchDisposables]), or a new set made on the spot ([disposables()]). *)
Inductive Disposer := OwnDisposables | SearchDisposables | NewDisposables.

(** What a handler does, in order. *)
#[local] Unset Elimination Schemes.
Inductive Effect :=
  | PreventDefault
  | Dispatch (action : ActionTypes.t)
  | FocusRef (ref : loc) (preventScroll : bool)
  | ClickElement (id : string)
  | DisposeAll (d : Disposer)
  | NextFrame (d : Disposer) (callback : list Effect)
  | SetTimeout (d : Disposer) (callback : list Effect) (ms : Z)
  | OnClick
  | ThrowTypeError.
#[local] Set Elimination Schemes.

(** The outside-click listener of [Menu]; [in_button] and [in_items] are
    [buttonRef.current?.contains(target)] and
    [itemsRef.current?.contains(target)], [focusable] is
    [isFocusableElement(target, FocusableMode.Loose)]. *)
Definition Menu_handler (state : StateDefinition)
    (in_button in_items focusable : bool) : list Effect :=
  match menuState state with
  | MenuStates.Closed => []
  | MenuStates.Open =>
      if in_button then []
      else if in_items then []
      else
        Dispatch ActionTypes.CloseMenu
        :: (if negb focusable
            then [PreventDefault; FocusRef (buttonRef state) false]
            else [])
  end.

Definition Button_handleKeyDown (K : Keys.t) (state : StateDefinition)
    (key : string) : list Effect :=
  if (String.eqb key (Keys.Space K) || String.eqb key (Keys.Enter K)
      || String.eqb key (Keys.ArrowDown K))%bool
  then
    [PreventDefault;
     Dispatch ActionTypes.OpenMenu;
     NextFrame OwnDisposables
       [FocusRef (itemsRef state) true;
        Dispatch (ActionTypes.GoToItem Focus.First)]]
  else if String.eqb key (Keys.ArrowUp K)
  then
    [PreventDefault;
     Dispatch ActionTypes.OpenMenu;
     NextFrame OwnDisposables
       [FocusRef (itemsRef state) true;
        Dispatch (ActionTypes.GoToItem Focus.Last)]]
  else [].

(** [issue7711] is [isDisabledReactIssue7711(event.currentTarget)],
    [disabled] is [props.disabled]. *)
Definition Button_handleClick (state : StateDefinition)
    (issue7711 disabled : bool) : list Effect :=
  if issue7711 then [PreventDefault]
  else if disabled then []
  else
    match menuState state with
    | MenuStates.Open =>
        [Dispatch ActionTypes.CloseMenu;
         NextFrame OwnDisposables [FocusRef (buttonRef state) true]]
    | MenuStates.Closed =>
        [PreventDefault;
         Dispatch ActionTypes.OpenMenu;
         NextFrame OwnDisposables [FocusRef (itemsRef state) true]]
    end.

(** The [Enter] case of [Items], which [Space] falls through to: the
    destructuring [let { id } = state.items[state.activeItemIndex]] throws
    when there is no such entry, and nothing after it runs. *)
Definition Items_activate (state : StateDefinition) : list Effect :=
  [PreventDefault; Dispatch ActionTypes.CloseMenu]
  ++ match activeItemIndex state with
     | Some i =>
         match nth_Z (items state) i with
         | Some item =>
             [ClickElement (Item.id (val item));
              NextFrame NewDisposables [FocusRef (buttonRef state) true]]
         | None => [ThrowTypeError]
         end
     | None => [NextFrame NewDisposables [FocusRef (buttonRef state) true]]
     end.

Definition Items_handleKeyDown (K : Keys.t) (state : StateDefinition)
    (key : string) : list Effect :=
  DisposeAll SearchDisposables
  :: (if String.eqb key (Keys.Space K) then
        if negb (String.eqb (searchQuery state) "")
        then [PreventDefault; Dispatch (ActionTypes.Search key)]
        else Items_activate state
      else if String.eqb key (Keys.Enter K) then Items_activate state
      else if String.eqb key (Keys.ArrowDown K) then
        [PreventDefault; Dispatch (ActionTypes.GoToItem Focus.Next)]
      else if String.eqb key (Keys.ArrowUp K) then
        [PreventDefault; Dispatch (ActionTypes.GoToItem Focus.Previous)]
      else if (String.eqb key (Keys.Home K)
               || String.eqb key (Keys.PageUp K))%bool then
        [PreventDefault; Dispatch (ActionTypes.GoToItem Focus.First)]
      else if (String.eqb key (Keys.End_ K)
               || String.eqb key (Keys.PageDown K))%bool then
        [PreventDefault; Dispatch (ActionTypes.GoToItem Focus.Last)]
      else if String.eqb key (Keys.Escape K) then
        [PreventDefault;
         Dispatch ActionTypes.CloseMenu;
         NextFrame NewDisposables [FocusRef (buttonRef state) true]]
      else if String.eqb key (Keys.Tab K) then [PreventDefault]
      else if (Z.of_nat (String.length key) =? 1) then
        [Dispatch (ActionTypes.Search key);
         SetTimeout SearchDisposables [Dispatch ActionTypes.ClearSearch] 350]
      else []).

(** The handlers of [Item]; [disabled] is the item's prop, [active] what
    [Item_active] gave at render, [has_onClick] whether [props.onClick] is
    there. *)
Definition Item_handleClick (state : StateDefinition)
    (disabled has_onClick : bool) : list Effect :=
  if disabled then [PreventDefault]
  else
    [Dispatch ActionTypes.CloseMenu;
     NextFrame NewDisposables [FocusRef (buttonRef state) true]]
    ++ (if has_onClick then [OnClick] else []).

Definition Item_handleFocus (disabled : bool) (id : string) : list Effect :=
  if disabled then [Dispatch (ActionTypes.GoToItem Focus.Nothing)]
  else [Dispatch (ActionTypes.GoToItem (Focus.Specific id))].

Definition Item_handleMove (disabled active : bool) (id : string)
  : list Effect :=
  if disabled then []
  else if active then []
  else [Dispatch (ActionTypes.GoToItem (Focus.Specific id))].

Definition Item_handleLeave (disabled active : bool) : list Effect :=
  if disabled then []
  else if negb active then []
  else [Dispatch (ActionTypes.GoToItem Focus.Nothing)].

(** The actions a handler dispatches while it runs, in order; what it defers
    to a later frame or timer is not among them. *)
Fixpoint dispatched (trace : list Effect) : list ActionTypes.t :=
  match trace with
  | [] => []
  | Dispatch action :: rest => action :: dispatched rest
  | _ :: rest => dispatched rest
  end.

(** The state once the reducer has run on what a handler dispatched. *)
Definition after_handler
    (calculateActiveIndex : Focus.t -> Resolvers (Obj Item.t) -> option Z)
    (σ : Store) (state : Obj StateDefinition) (trace : list Effect)
    (h : addr) : StateDefinition :=
  val (fst (dispatch_all calculateActiveIndex state
              ((fun action => (σ, action)) <$> dispatched trace) h)).

(** ** The active-index resolver *)

(** What the resolver answers when a cyclic scan meets no enabled entry:
    the specification allows either. *)
Inductive NoneFound := ResultNull | ResultUnchanged.

Section Resolver.
Context {T : Type} (r : Resolvers T).

(** The entry at index [i] exists and is not disabled. *)
Definition enabled_at (i : Z) : bool :=
  match nth_Z (resolveItems r tt) i with
  | Some item => negb (resolveDisabled r item)
  | None => false
  end.

(** The indices a cyclic scan visits, [collection.length] of them, from
    [start] on: forward, and backward. *)
Definition forward_from (start : Z) : list Z :=
  let len := length (resolveItems r tt) in
  (fun k => (start + Z.of_nat k) mod Z.of_nat len) <$> seq 0 len.

Definition backward_from (start : Z) : list Z :=
  let len := length (resolveItems r tt) in
  (fun k => (start - Z.of_nat k) mod Z.of_nat len) <$> seq 0 len.

(** The first enabled index among the candidates, in their order. *)
Definition first_enabled (candidates : list Z) : option Z :=
  snd <$> list_find (fun i => enabled_at i = true) candidates.

Definition none_found (nf : NoneFound) : option Z :=
  match nf with
  | ResultNull => None
  | ResultUnchanged => resolveActiveIndex r tt
  end.

End Resolver.

(** Modelled from the spec: [calculateActiveIndex] of
    [utils/calculate-active-index], which the menu imports and which is not
    part of the sources at hand.  Section 4.2 of the specification: [First]
    is the first non-disabled index, or null; [Last] is symmetric from the
    end; [Next] scans forward cyclically from the index after the current
    one, at most [collection.length] steps, and returns the first
    non-disabled index it meets, or null/unchanged when there is none;
    [Previous] is symmetric, backward; with a null current index [Next] and
    [Previous] behave as [First] and [Last]; [Specific id] is the index of
    the item with that id, or unchanged if it is disabled; [Nothing] is null.
    The specification does not say what [Specific] answers when no item has
    the id: the index is left unchanged here. *)
Definition calculateActiveIndex (nf : NoneFound) {T : Type}
    (action : Focus.t) (r : Resolvers T) : option Z :=
  let len := Z.of_nat (length (resolveItems r tt)) in
  let currentIndex := resolveActiveIndex r tt in
  match action with
  | Focus.First => first_enabled r (forward_from r 0)
  | Focus.Last => first_enabled r (backward_from r (len - 1))
  | Focus.Next =>
      match currentIndex with
      | None => first_enabled r (forward_from r 0)
      | Some c =>
          match first_enabled r (forward_from r (c + 1)) with
          | Some i => Some i
          | None => none_found r nf
          end
      end
  | Focus.Previous =>
      match currentIndex with
      | None => first_enabled r (backward_from r (len - 1))
      | Some c =>
          match first_enabled r (backward_from r (c - 1)) with
          | Some i => Some i
          | None => none_found r nf
          end
      end
  | Focus.Specific id =>
      let i := findIndex (fun item => String.eqb (resolveId r item) id)
                 (resolveItems r tt) in
      if i =? -1 then currentIndex
      else if enabled_at r i then Some i else currentIndex
  | Focus.Nothing => None
  end.

(** The reducer over the modelled resolver. *)
Definition menuReducer (nf : NoneFound) :=
  stateReducer (calculateActiveIndex nf).

(** ** Predicates of the statements *)

(** ActiveIndex is null or a valid index into the collection. *)
Definition valid_active (s : StateDefinition) : Prop :=
  match activeItemIndex s with
  | None => True
  | Some i => 0 <= i < Z.of_nat (length (items s))
  end.

(** Every entry of the collection is an object of its own. *)
Definition distinct_objects (s : StateDefinition) : Prop :=
  NoDup (addr_of <$> items s).

(** The entry at index [i] of the collection exists and its bag says it is
    not disabled. *)
Definition enabled (σ : Store) (s : StateDefinition) (i : Z) : Prop :=
  exists item, nth_Z (items s) i = Some item
               /\ disabled (σ (Item.dataRef (val item))) = false.

(** Some entry of the collection has this id. *)
Definition has_id (s : StateDefinition) (d : string) : Prop :=
  exists item, item ∈ items s /\ Item.id (val item) = d.

(** The index of an entry once the entry at index [i] is gone. *)
Definition shifted (i : nat) (a : Z) : Z :=
  if a <? Z.of_nat i then a else a - 1.

(** Every entry of the collection was allocated before address [h]. *)
Definition allocated_below (h : addr) (s : StateDefinition) : Prop :=
  Forall (fun o => (addr_of o < h)%nat) (items s).

(** [text] starts with [query] when case is ignored. *)
Definition startsWith_ignoring_case (text query : string) : bool :=
  startsWith (toLowerCase text) (toLowerCase query).

(** The actions that change the collection. *)
Definition changes_collection (action : ActionTypes.t) : Prop :=
  match action with
  | ActionTypes.RegisterItem _ _ | ActionTypes.UnregisterItem _ => True
  | _ => False
  end.

(** The active index after [GoToItem focus], over the modelled resolver. *)
Definition go (nf : NoneFound) (σ : Store) (state : Obj StateDefinition)
    (h : addr) (focus : Focus.t) : option Z :=
  activeItemIndex
    (val (fst (menuReducer nf σ state (ActionTypes.GoToItem focus) h))).

(** What the reducers need of [calculateActiveIndex] to keep the active
    index valid: it answers null, the current index, or an index of the
    collection. *)
Definition answers_in_range
    (calc : Focus.t -> Resolvers (Obj Item.t) -> option Z) : Prop :=
  forall focus r,
    match calc focus r with
    | None => True
    | Some i =>
        resolveActiveIndex r tt = Some i
        \/ 0 <= i < Z.of_nat (length (resolveItems r tt))
    end.

(** The key names of the DOM. *)
Definition dom_keys : Keys.t :=
  {| Keys.Space := " "; Keys.Enter := "Enter"; Keys.Escape := "Escape";
     Keys.ArrowUp := "ArrowUp"; Keys.ArrowDown := "ArrowDown";
     Keys.Home := "Home"; Keys.End_ := "End"; Keys.PageUp := "PageUp";
     Keys.PageDown := "PageDown"; Keys.Tab := "Tab" |}.

(** A sample menu: three items, nothing open, nothing active. *)
Definition itemA : Obj Item.t := mkObj 1%nat (Item.mk "A" 11%nat).
Definition itemB : Obj Item.t := mkObj 2%nat (Item.mk "B" 12%nat).
Definition itemC : Obj Item.t := mkObj 3%nat (Item.mk "C" 13%nat).

Definition sample (ms : MenuStates.t) (q : string) (active : option Z)
  : Obj StateDefinition :=
  mkObj 4%nat (mkState ms 20%nat 21%nat [itemA; itemB; itemC] q active).

(** The bags of three mounted items of texts "Pickup", "Home delivery" and
    "Dine in", none disabled. *)
Definition no_bags : Store := fun _ => mkItemData None false.

Definition sample_store : Store :=
  Item_textValue_effect
    (Item_textValue_effect
       (Item_textValue_effect no_bags 11%nat (Some "Pickup"))
       12%nat (Some "Home delivery"))
    13%nat (Some "Dine in").

(** The same bags with the last item disabled. *)
Definition last_disabled_store : Store :=
  Item_disabled_effect sample_store 13%nat true.

(** The same bags with every item disabled. *)
Definition all_disabled_store : Store :=
  Item_disabled_effect
    (Item_disabled_effect (Item_disabled_effect sample_store 11%nat true)
       12%nat true)
    13%nat true.

Example sample_Next_from_last :
  activeItemIndex (val (fst (menuReducer ResultNull sample_store
     (sample MenuStates.Open "" (Some 2)) (ActionTypes.GoToItem Focus.Next) 5%nat)))
  = Some 0.
Proof. vm_compute. reflexivity. Qed.

Example sample_Previous_from_first :
  activeItemIndex (val (fst (menuReducer ResultNull sample_store
     (sample MenuStates.Open "" (Some 0)) (ActionTypes.GoToItem Focus.Previous) 5%nat)))
  = Some 2.
Proof. vm_compute. reflexivity. Qed.

Example sample_Search_ho :
  activeItemIndex (val (fst (menuReducer ResultNull sample_store
     (sample MenuStates.Open "h" None) (ActionTypes.Search "o") 5%nat)))
  = Some 1.
Proof. vm_compute. reflexivity. Qed.

Example sample_Unregister_A :
  val (fst (menuReducer ResultNull sample_store
     (sample MenuStates.Open "" (Some 2)) (ActionTypes.UnregisterItem "A") 5%nat))
  = mkState MenuStates.Open 20%nat 21%nat [itemB; itemC] "" (Some 1).
Proof. vm_compute. reflexivity. Qed.

(** ** Array helpers *)

Section ArrayFacts.
Context {A : Type}.
Implicit Types (p : A -> bool) (l : list A).

Lemma findIndex_cases p l :
  (findIndex p l = -1 /\ Forall (fun x => p x = false) l)
  \/ (exists (i : nat) x,
        findIndex p l = Z.of_nat i /\ l !! i = Some x /\ p x = true
        /\ forall (j : nat) y, l !! j = Some y -> (j < i)%nat -> p y = false).
Proof.
  unfold findIndex.
  destruct (list_find (fun x => p x = true) l) as [[i x]|] eqn:E.
  - right. apply list_find_Some in E as (Hl & Hp & Hlt).
    exists i, x. repeat split; auto.
    intros j y Hj Hji. specialize (Hlt j y Hj Hji).
    destruct (p y); congruence.
  - left. split; [reflexivity|].
    apply list_find_None in E.
    eapply Forall_impl; [exact E|].
    intros y Hy. simpl in Hy. destruct (p y); congruence.
Qed.

Lemma findIndex_first p l (i : nat) x :
  l !! i = Some x -> p x = true ->
  (forall (j : nat) y, l !! j = Some y -> (j < i)%nat -> p y = false) ->
  findIndex p l = Z.of_nat i.
Proof.
  intros Hl Hp Hlt. unfold findIndex.
  assert (list_find (fun x => p x = true) l = Some (i, x)) as ->; [|done].
  apply list_find_Some. repeat split; auto.
  intros j y Hj Hji. rewrite (Hlt j y Hj Hji). discriminate.
Qed.

Lemma findIndex_range p l : -1 <= findIndex p l < Z.of_nat (length l).
Proof.
  destruct (findIndex_cases p l) as [[-> _]|(i & x & -> & Hl & _)].
  - lia.
  - apply lookup_lt_Some in Hl. lia.
Qed.

Lemma nth_Z_of_nat l (i : nat) : nth_Z l (Z.of_nat i) = l !! i.
Proof.
  unfold nth_Z. destruct (Z.ltb_spec (Z.of_nat i) 0); [lia|].
  by rewrite Nat2Z.id.
Qed.

Lemma nth_Z_Some l i x :
  nth_Z l i = Some x -> 0 <= i < Z.of_nat (length l) /\ l !! Z.to_nat i = Some x.
Proof.
  unfold nth_Z. destruct (Z.ltb_spec i 0); [discriminate|].
  intros Hl. split; [|done]. apply lookup_lt_Some in Hl. lia.
Qed.

Lemma nth_Z_in_range l i :
  0 <= i < Z.of_nat (length l) -> exists x, nth_Z l i = Some x.
Proof.
  intros Hi. unfold nth_Z. destruct (Z.ltb_spec i 0); [lia|].
  apply lookup_lt_is_Some_2. lia.
Qed.

End ArrayFacts.

(** ** What each reducer returns *)

Section ReducerFacts.
Variable calc : Focus.t -> Resolvers (Obj Item.t) -> option Z.
Variable σ : Store.
Implicit Types (state : Obj StateDefinition) (h : addr).

(** Whichever branch [GoToItem] takes, the state it returns holds the
    resolved index. *)
Lemma GoToItem_active state focus h :
  activeItemIndex (val (fst (reducers.GoToItem calc σ state focus h)))
  = calc focus (reducers.resolvers σ state).
Proof.
  unfold reducers.GoToItem.
  destruct (String.eqb _ _ && bool_decide _)%bool eqn:E; [|reflexivity].
  apply andb_prop in E as [_ E]. apply bool_decide_eq_true in E.
  exact E.
Qed.

Lemma GoToItem_items state focus h :
  items (val (fst (reducers.GoToItem calc σ state focus h)))
  = items (val state).
Proof.
  unfold reducers.GoToItem.
  by destruct (String.eqb _ _ && bool_decide _)%bool.
Qed.

End ReducerFacts.

(** ** Open, close and clear *)

(** C5: a transition that has nothing to do returns the very state object it
    was given, and allocates nothing: [OpenMenu] on an open menu, [CloseMenu]
    on a closed one, [ClearSearch] on an empty query.  Hence a second
    [OpenMenu] (or [CloseMenu]) returns the state of the first. *)
Theorem noop_transitions_return_same_state
    calc σ (state : Obj StateDefinition) (h : addr) :
  (menuState (val state) = MenuStates.Open ->
     stateReducer calc σ state ActionTypes.OpenMenu h = (state, h))
  /\ (menuState (val state) = MenuStates.Closed ->
     stateReducer calc σ state ActionTypes.CloseMenu h = (state, h))
  /\ (searchQuery (val state) = "" ->
     stateReducer calc σ state ActionTypes.ClearSearch h = (state, h))
  /\ (forall action,
        action = ActionTypes.OpenMenu \/ action = ActionTypes.CloseMenu ->
        let once := stateReducer calc σ state action h in
        let twice := stateReducer calc σ (fst once) action (snd once) in
        val (fst twice) = val (fst once) /\ fst twice = fst once).
Proof.
  repeat split.
  - intros H. simpl. unfold reducers.OpenMenu. by rewrite H.
  - intros H. simpl. unfold reducers.CloseMenu. by rewrite H.
  - intros H. simpl. unfold reducers.ClearSearch. by rewrite H.
  - destruct H as [-> | ->]; cbn;
      unfold reducers.OpenMenu, reducers.CloseMenu;
      destruct (menuState (val state)) eqn:E; cbn; rewrite ?E; reflexivity.
  - destruct H as [-> | ->]; cbn;
      unfold reducers.OpenMenu, reducers.CloseMenu;
      destruct (menuState (val state)) eqn:E; cbn; rewrite ?E; reflexivity.
Qed.

Lemma noop_transitions_return_same_state_witness :
  let opened := sample MenuStates.Open "" (Some 1) in
  let closed := sample MenuStates.Closed "" None in
  menuReducer ResultNull sample_store opened ActionTypes.OpenMenu 5%nat
    = (opened, 5%nat)
  /\ menuReducer ResultNull sample_store closed ActionTypes.CloseMenu 5%nat
    = (closed, 5%nat)
  /\ menuReducer ResultNull sample_store closed ActionTypes.ClearSearch 5%nat
    = (closed, 5%nat)
  /\ val (fst (menuReducer ResultNull sample_store
                 (fst (menuReducer ResultNull sample_store closed
                         ActionTypes.OpenMenu 5%nat))
                 ActionTypes.OpenMenu 6%nat))
     = val (fst (menuReducer ResultNull sample_store closed
                   ActionTypes.OpenMenu 5%nat)).
Proof.
  intros opened closed.
  destruct (noop_transitions_return_same_state
              (calculateActiveIndex ResultNull) sample_store opened 5%nat)
    as (Hopen & _).
  destruct (noop_transitions_return_same_state
              (calculateActiveIndex ResultNull) sample_store closed 5%nat)
    as (_ & Hclose & Hclear & Htwice).
  split; [apply Hopen; reflexivity|].
  split; [apply Hclose; reflexivity|].
  split; [apply Hclear; reflexivity|].
  apply (Htwice ActionTypes.OpenMenu). left. reflexivity.
Defined.

(** C6: closing an open menu gives a closed menu with no active item, and
    keeps the items, the query and the two element handles. *)
Theorem CloseMenu_resets_active
    calc σ (state : Obj StateDefinition) (h : addr) :
  menuState (val state) = MenuStates.Open ->
  let s' := val (fst (stateReducer calc σ state ActionTypes.CloseMenu h)) in
  menuState s' = MenuStates.Closed
  /\ activeItemIndex s' = None
  /\ items s' = items (val state)
  /\ searchQuery s' = searchQuery (val state)
  /\ buttonRef s' = buttonRef (val state)
  /\ itemsRef s' = itemsRef (val state).
Proof.
  intros H. simpl. unfold reducers.CloseMenu. rewrite H. simpl. tauto.
Qed.

Lemma CloseMenu_resets_active_witness :
  let state := sample MenuStates.Open "ho" (Some 1) in
  let s' := val (fst (menuReducer ResultNull sample_store state
                        ActionTypes.CloseMenu 5%nat)) in
  menuState s' = MenuStates.Closed
  /\ activeItemIndex s' = None
  /\ items s' = [itemA; itemB; itemC]
  /\ searchQuery s' = "ho"
  /\ buttonRef s' = 20%nat
  /\ itemsRef s' = 21%nat.
Proof.
  apply (CloseMenu_resets_active (calculateActiveIndex ResultNull)
           sample_store (sample MenuStates.Open "ho" (Some 1)) 5%nat).
  reflexivity.
Defined.

(** ** Navigation *)

(** C7: [GoToItem] returns the state object it was given when the resolved
    index is the current one and the query is already empty; in every other
    case it returns a new state whose query is empty and whose active index
    is the resolved one, the rest being kept. *)
Theorem GoToItem_fast_path_or_reset
    calc σ (state : Obj StateDefinition) (focus : Focus.t) (h : addr) :
  let resolved := calc focus (reducers.resolvers σ state) in
  let out := stateReducer calc σ state (ActionTypes.GoToItem focus) h in
  (resolved = activeItemIndex (val state) /\ searchQuery (val state) = "" ->
     out = (state, h))
  /\ (~ (resolved = activeItemIndex (val state)
         /\ searchQuery (val state) = "") ->
      searchQuery (val (fst out)) = ""
      /\ activeItemIndex (val (fst out)) = resolved
      /\ items (val (fst out)) = items (val state)
      /\ menuState (val (fst out)) = menuState (val state)
      /\ addr_of (fst out) = h).
Proof.
  simpl. unfold reducers.GoToItem. split.
  - intros [Hr Hq]. rewrite Hq, Hr. simpl.
    rewrite bool_decide_eq_true_2; reflexivity.
  - intros Hn.
    destruct (String.eqb _ _ && bool_decide _)%bool eqn:E; [|by simpl].
    exfalso. apply Hn. apply andb_prop in E as [Hq Hr].
    apply bool_decide_eq_true in Hr. apply String.eqb_eq in Hq. by split.
Qed.

Lemma GoToItem_fast_path_or_reset_witness :
  menuReducer ResultNull sample_store (sample MenuStates.Open "" (Some 0))
    (ActionTypes.GoToItem Focus.First) 5%nat
  = (sample MenuStates.Open "" (Some 0), 5%nat)
  /\ (let out := menuReducer ResultNull sample_store
                   (sample MenuStates.Open "ho" (Some 1))
                   (ActionTypes.GoToItem Focus.Next) 5%nat in
      searchQuery (val (fst out)) = ""
      /\ activeItemIndex (val (fst out)) = Some 2
      /\ items (val (fst out)) = [itemA; itemB; itemC]
      /\ menuState (val (fst out)) = MenuStates.Open
      /\ addr_of (fst out) = 5%nat).
Proof.
  split.
  - apply (GoToItem_fast_path_or_reset (calculateActiveIndex ResultNull)
             sample_store (sample MenuStates.Open "" (Some 0)) Focus.First 5%nat).
    split; reflexivity.
  - apply (GoToItem_fast_path_or_reset (calculateActiveIndex ResultNull)
             sample_store (sample MenuStates.Open "ho" (Some 1)) Focus.Next 5%nat).
    intros [_ Hq]. discriminate Hq.
Defined.

(** ** Misuse *)

(** C8: without a parent context the guard throws, and the message of the
    error is made of the name of the calling component and of the name of
    the menu; for the items container it reads as quoted. *)
Theorem useMenuContext_missing_parent_throws (C : Type) (component : string) :
  useMenuContext (@None C) component
  = Throws ("<" +:+ component +:+ " /> is missing a parent <Menu /> component.")
  /\ useMenuContext (@None C) (component_of Items_name)
     = Throws "<Menu.Items /> is missing a parent <Menu /> component."
  /\ useMenuContext (@None C) (component_of Button_name)
     = Throws "<Menu.Button /> is missing a parent <Menu /> component."
  /\ useMenuContext (@None C) (component_of Item_name)
     = Throws "<Menu.Item /> is missing a parent <Menu /> component."
  /\ forall c : C, useMenuContext (Some c) component = Returns c.
Proof. repeat split. Qed.

(** ** Registration *)

(** C3, as the code has it: [RegisterItem] always appends one new entry made
    of the id and the bag of the action, whether or not the id is already in
    the collection, and keeps every other field. *)
Theorem RegisterItem_always_appends
    calc σ (state : Obj StateDefinition) (id : string) (dataRef : loc) (h : addr) :
  let s' := val (fst (stateReducer calc σ state
                        (ActionTypes.RegisterItem id dataRef) h)) in
  items s' = items (val state) ++ [mkObj h (Item.mk id dataRef)]
  /\ length (items s') = S (length (items (val state)))
  /\ menuState s' = menuState (val state)
  /\ searchQuery s' = searchQuery (val state)
  /\ activeItemIndex s' = activeItemIndex (val state)
  /\ buttonRef s' = buttonRef (val state)
  /\ itemsRef s' = itemsRef (val state).
Proof.
  cbn. repeat split. rewrite length_app. cbn. lia.
Qed.

(** C3, as stated, fails: registering the id "A" a second time does not
    leave the collection as it was. *)
Lemma RegisterItem_duplicate_not_noop :
  let state := sample MenuStates.Open "" None in
  has_id (val state) "A"
  /\ items (val (fst (menuReducer ResultNull sample_store state
                        (ActionTypes.RegisterItem "A" 11%nat) 5%nat)))
     <> items (val state).
Proof.
  split.
  - exists itemA. split; [apply list_elem_of_here|reflexivity].
  - cbn. discriminate.
Qed.

(** ** Unregistration *)

Section Unregister.
Implicit Types (l : list (Obj Item.t)) (o : Obj Item.t).

(** [indexOf] of an object that sits at index [n] finds that object, at
    [n] or before; at [n] when the entries are distinct objects. *)
Lemma indexOf_lookup l (n : nat) o :
  l !! n = Some o ->
  exists (j : nat) o',
    indexOf l (Ref o) = Z.of_nat j /\ (j <= n)%nat
    /\ l !! j = Some o' /\ addr_of o' = addr_of o
    /\ (NoDup (addr_of <$> l) -> j = n).
Proof.
  intros Hn. unfold indexOf.
  destruct (findIndex_cases (same_object o) l)
    as [[_ Hall]|(j & o' & -> & Hj & Hsame & Hfirst)].
  - rewrite Forall_forall in Hall.
    specialize (Hall o (list_elem_of_lookup_2 _ _ _ Hn)).
    unfold same_object in Hall. rewrite Nat.eqb_refl in Hall. discriminate.
  - unfold same_object in Hsame. apply Nat.eqb_eq in Hsame.
    assert (j <= n)%nat as Hle.
    { destruct (le_lt_dec j n) as [|Hlt]; [done|].
      specialize (Hfirst n o Hn Hlt). unfold same_object in Hfirst.
      rewrite Nat.eqb_refl in Hfirst. discriminate. }
    exists j, o'. repeat split; auto.
    intros Hnd. eapply NoDup_lookup; [exact Hnd| |].
    + rewrite list_lookup_fmap, Hj. reflexivity.
    + rewrite list_lookup_fmap, Hn. cbn. by rewrite Hsame.
Qed.

Lemma lookup_delete_shifted l (i : nat) a o :
  nth_Z l a = Some o -> a <> Z.of_nat i ->
  0 <= shifted i a
  /\ delete i l !! Z.to_nat (shifted i a) = Some o.
Proof.
  intros Ha Hne. apply nth_Z_Some in Ha as [Hr Ha].
  unfold shifted. destruct (Z.ltb_spec a (Z.of_nat i)).
  - split; [lia|]. rewrite list_lookup_delete_lt by lia. done.
  - split; [lia|]. rewrite list_lookup_delete_ge by lia.
    replace (S (Z.to_nat (a - 1))) with (Z.to_nat a) by lia. done.
Qed.

Lemma NoDup_addr_delete l (i : nat) :
  NoDup (addr_of <$> l) -> NoDup (addr_of <$> delete i l).
Proof.
  rewrite list_fmap_delete. intros Hnd.
  eapply sublist_NoDup; [exact Hnd|apply sublist_delete].
Qed.

(** The first entry with id [d], when there is one, splits the collection. *)
Lemma findIndex_id_found l d :
  (exists o, o ∈ l /\ Item.id (val o) = d) ->
  exists (i : nat) x,
    findIndex (fun a => String.eqb (Item.id (val a)) d) l = Z.of_nat i
    /\ l !! i = Some x /\ Item.id (val x) = d
    /\ (forall y, y ∈ take i l -> Item.id (val y) <> d)
    /\ l = take i l ++ x :: drop (S i) l
    /\ length (take i l) = i.
Proof.
  intros (o & Ho & Hd).
  destruct (findIndex_cases (fun a => String.eqb (Item.id (val a)) d) l)
    as [[_ Hall]|(i & x & Hi & Hl & Hx & Hfirst)].
  - rewrite Forall_forall in Hall. specialize (Hall o Ho). cbn in Hall.
    apply String.eqb_neq in Hall. contradiction.
  - exists i, x. apply String.eqb_eq in Hx.
    repeat split; auto.
    + intros y Hy. apply list_elem_of_lookup_1 in Hy as [j Hj].
      apply lookup_take_Some in Hj as [Hj Hji].
      specialize (Hfirst j y Hj Hji). cbn in Hfirst.
      by apply String.eqb_neq in Hfirst.
    + symmetry. by apply take_drop_middle.
    + apply lookup_lt_Some in Hl. rewrite length_take. lia.
Qed.

Lemma findIndex_id_absent l d :
  ~ (exists o, o ∈ l /\ Item.id (val o) = d) ->
  findIndex (fun a => String.eqb (Item.id (val a)) d) l = -1.
Proof.
  intros Hno.
  destruct (findIndex_cases (fun a => String.eqb (Item.id (val a)) d) l)
    as [[-> _]|(i & x & _ & Hl & Hx & _)]; [reflexivity|].
  exfalso. apply Hno. exists x. split.
  - by eapply list_elem_of_lookup_2.
  - by apply String.eqb_eq.
Qed.

End Unregister.

(** C1: when some entry has id [d], [UnregisterItem d] removes the first
    such entry and nothing else.  If that entry was the active one the
    active index becomes null.  Otherwise, if the active index pointed at an
    entry, it now points at that same object in the shorter collection, at
    the place the object has moved to.  With [A; B; C] and [C] active,
    unregistering [A] leaves [B; C] with active index 1. *)
Theorem UnregisterItem_removes_and_retargets
    calc σ (state : Obj StateDefinition) (d : string) (h : addr) :
  has_id (val state) d ->
  let s' := val (fst (stateReducer calc σ state
                        (ActionTypes.UnregisterItem d) h)) in
  (exists l1 x l2,
     items (val state) = l1 ++ x :: l2
     /\ Item.id (val x) = d
     /\ (forall y, y ∈ l1 -> Item.id (val y) <> d)
     /\ items s' = l1 ++ l2
     /\ (activeItemIndex (val state) = Some (Z.of_nat (length l1)) ->
         activeItemIndex s' = None)
     /\ (forall a o,
           activeItemIndex (val state) = Some a ->
           a <> Z.of_nat (length l1) ->
           nth_Z (items (val state)) a = Some o ->
           exists j o',
             activeItemIndex s' = Some j
             /\ nth_Z (items s') j = Some o'
             /\ addr_of o' = addr_of o
             /\ (distinct_objects (val state) ->
                 j = shifted (length l1) a /\ o' = o)))
  /\ (forall A B C,
        items (val state) = [A; B; C] ->
        Item.id (val A) = d ->
        addr_of B <> addr_of C ->
        activeItemIndex (val state) = Some 2 ->
        items s' = [B; C] /\ activeItemIndex s' = Some 1).
Proof.
  intros Hd. split.
  - destruct (findIndex_id_found (items (val state)) d Hd)
      as (i & x & Hi & Hl & Hx & Hbefore & Hsplit & Hlen).
    exists (take i (items (val state))), x, (drop (S i) (items (val state))).
    rewrite Hlen.
    assert ((Z.of_nat i =? -1) = false) as Hneq by (apply Z.eqb_neq; lia).
    cbn. rewrite Hi, Hneq. unfold splice1. rewrite Nat2Z.id.
    split; [exact Hsplit|]. split; [exact Hx|]. split; [exact Hbefore|].
    split; [apply delete_take_drop|]. split.
    + intros ->. by rewrite bool_decide_eq_true_2.
    + intros a o Ha Hne Ho. rewrite Ha, Ho.
      rewrite bool_decide_eq_false_2 by congruence.
      destruct (lookup_delete_shifted _ i a o Ho Hne) as [Hpos Hsh].
      destruct (indexOf_lookup _ _ _ Hsh)
        as (j & o' & Hj & Hle & Hlook & Haddr & Hnd).
      exists (Z.of_nat j), o'. rewrite Hj, nth_Z_of_nat.
      repeat split; auto.
      * specialize (Hnd (NoDup_addr_delete _ i H)). lia.
      * specialize (Hnd (NoDup_addr_delete _ i H)). subst j. congruence.
  - intros A B C Hitems HA Hne Hact.
    assert (findIndex (fun a => String.eqb (Item.id (val a)) d) [A; B; C] = 0)
      as HfindA.
    { apply (findIndex_first _ _ 0%nat A); [reflexivity| |intros; lia].
      cbn. rewrite HA. apply String.eqb_refl. }
    assert (findIndex (same_object C) [B; C] = 1) as HfindC.
    { apply (findIndex_first _ _ 1%nat C); [reflexivity| |].
      - unfold same_object. apply Nat.eqb_refl.
      - intros [|j] y Hy Hj; [|lia]. injection Hy as <-.
        unfold same_object. apply Nat.eqb_neq. congruence. }
    unfold stateReducer, reducers.UnregisterItem, new.
    cbn [fst val items activeItemIndex].
    rewrite Hitems, Hact, HfindA.
    change (0 =? -1) with false. cbv iota.
    change (nth_Z [A; B; C] 2) with (Some C).
    change (splice1 [A; B; C] 0) with [B; C].
    cbn [indexOf]. rewrite HfindC.
    rewrite bool_decide_eq_false_2 by discriminate. done.
Qed.

Lemma UnregisterItem_removes_and_retargets_witness :
  let state := sample MenuStates.Open "" (Some 2) in
  let s' := val (fst (menuReducer ResultNull sample_store state
                        (ActionTypes.UnregisterItem "A") 5%nat)) in
  has_id (val state) "A"
  /\ items s' = [itemB; itemC] /\ activeItemIndex s' = Some 1.
Proof.
  assert (has_id (val (sample MenuStates.Open "" (Some 2))) "A") as Hid.
  { exists itemA. split; [apply list_elem_of_here|reflexivity]. }
  split; [exact Hid|].
  destruct (UnregisterItem_removes_and_retargets
              (calculateActiveIndex ResultNull) sample_store
              (sample MenuStates.Open "" (Some 2)) "A" 5%nat Hid) as [_ H].
  apply (H itemA itemB itemC); [reflexivity|reflexivity|cbn; lia|reflexivity].
Defined.

(** C10: when no entry has id [d], [UnregisterItem d] keeps the collection
    as it is; a null active index stays null, and an active index that
    points at an entry still points at that entry, at the same index, the
    entries being distinct objects. *)
Theorem UnregisterItem_unknown_id_keeps
    calc σ (state : Obj StateDefinition) (d : string) (h : addr) :
  ~ has_id (val state) d ->
  let s' := val (fst (stateReducer calc σ state
                        (ActionTypes.UnregisterItem d) h)) in
  items s' = items (val state)
  /\ (activeItemIndex (val state) = None -> activeItemIndex s' = None)
  /\ (forall a o,
        activeItemIndex (val state) = Some a ->
        nth_Z (items (val state)) a = Some o ->
        distinct_objects (val state) ->
        activeItemIndex s' = Some a /\ nth_Z (items s') a = Some o).
Proof.
  intros Hd. cbn. rewrite (findIndex_id_absent _ _ Hd). cbn.
  split; [reflexivity|]. split.
  - intros ->. reflexivity.
  - intros a o Ha Ho Hnd. rewrite Ha, Ho.
    pose proof (nth_Z_Some _ _ _ Ho) as [Hr Hl].
    rewrite bool_decide_eq_false_2 by (intros [= ->]; lia).
    destruct (indexOf_lookup _ _ _ Hl) as (j & o' & Hj & _ & _ & _ & Hsame).
    rewrite Hj, (Hsame Hnd). split; [f_equal; lia|reflexivity].
Qed.

Lemma UnregisterItem_unknown_id_keeps_witness :
  let state := sample MenuStates.Open "" (Some 2) in
  let s' := val (fst (menuReducer ResultNull sample_store state
                        (ActionTypes.UnregisterItem "Z") 5%nat)) in
  items s' = [itemA; itemB; itemC]
  /\ activeItemIndex s' = Some 2 /\ nth_Z (items s') 2 = Some itemC.
Proof.
  destruct (UnregisterItem_unknown_id_keeps
              (calculateActiveIndex ResultNull) sample_store
              (sample MenuStates.Open "" (Some 2)) "Z" 5%nat) as (H1 & _ & H3).
  - intros (o & Ho & Hid). cbn in Ho.
    rewrite !elem_of_cons, elem_of_nil in Ho.
    destruct Ho as [->|[->|[->|[]]]]; vm_compute in Hid; discriminate Hid.
  - split; [exact H1|].
    apply H3; [reflexivity|reflexivity|].
    unfold distinct_objects. apply (bool_decide_unpack _). vm_compute. exact I.
Defined.

(** An active index that points at no entry is outside what the theorems
    above speak of: [nextItems[7]] is [undefined], which [indexOf] does not
    find. *)
Example UnregisterItem_dangling_index :
  activeItemIndex
    (val (fst (menuReducer ResultNull sample_store
                 (sample MenuStates.Open "" (Some 7))
                 (ActionTypes.UnregisterItem "Z") 5%nat)))
  = Some (-1).
Proof. vm_compute. reflexivity. Qed.

(** ** The resolver *)

Section ResolverFacts.
Context {T : Type} (r : Resolvers T).

Local Abbreviation len := (Z.of_nat (length (resolveItems r tt))).

Lemma enabled_at_range i : enabled_at r i = true -> 0 <= i < len.
Proof.
  unfold enabled_at.
  destruct (nth_Z (resolveItems r tt) i) as [x|] eqn:E; [|discriminate].
  intros _. by apply nth_Z_Some in E as [? _].
Qed.

Lemma first_enabled_Some cands i :
  first_enabled r cands = Some i -> enabled_at r i = true /\ i ∈ cands.
Proof.
  unfold first_enabled.
  destruct (list_find _ cands) as [[k y]|] eqn:E; [|discriminate].
  intros [= <-]. apply list_find_Some in E as (Hk & Hy & _).
  split; [exact Hy|]. by eapply list_elem_of_lookup_2.
Qed.

Lemma first_enabled_None cands i :
  first_enabled r cands = None -> i ∈ cands -> enabled_at r i = false.
Proof.
  unfold first_enabled.
  destruct (list_find _ cands) as [[k y]|] eqn:E; [discriminate|].
  intros _ Hi. apply list_find_None in E. rewrite Forall_forall in E.
  specialize (E i Hi). cbn in E. by destruct (enabled_at r i).
Qed.

(** The candidate at step [k] is the first enabled one. *)
Lemma first_enabled_at cands (k : nat) i :
  cands !! k = Some i -> enabled_at r i = true ->
  (forall (j : nat) y, cands !! j = Some y -> (j < k)%nat ->
                       enabled_at r y = false) ->
  first_enabled r cands = Some i.
Proof.
  intros Hk Hi Hbefore. unfold first_enabled.
  assert (list_find (fun i => enabled_at r i = true) cands = Some (k, i))
    as ->; [|reflexivity].
  apply list_find_Some. repeat split; auto.
  intros j y Hj Hjk. rewrite (Hbefore j y Hj Hjk). discriminate.
Qed.

Lemma forward_from_lookup start (k : nat) :
  (Z.of_nat k < len) ->
  forward_from r start !! k = Some ((start + Z.of_nat k) mod len).
Proof.
  intros Hk. unfold forward_from. rewrite list_lookup_fmap.
  rewrite lookup_seq_lt by lia. reflexivity.
Qed.

Lemma backward_from_lookup start (k : nat) :
  (Z.of_nat k < len) ->
  backward_from r start !! k = Some ((start - Z.of_nat k) mod len).
Proof.
  intros Hk. unfold backward_from. rewrite list_lookup_fmap.
  rewrite lookup_seq_lt by lia. reflexivity.
Qed.

Lemma forward_from_lookup_inv start (k : nat) y :
  forward_from r start !! k = Some y ->
  Z.of_nat k < len /\ y = (start + Z.of_nat k) mod len.
Proof.
  intros Hk. pose proof (lookup_lt_Some _ _ _ Hk) as Hlt.
  unfold forward_from in Hlt. rewrite length_fmap, length_seq in Hlt.
  assert (Z.of_nat k < len) as Hk' by lia.
  rewrite (forward_from_lookup _ _ Hk') in Hk. split; congruence.
Qed.

Lemma backward_from_lookup_inv start (k : nat) y :
  backward_from r start !! k = Some y ->
  Z.of_nat k < len /\ y = (start - Z.of_nat k) mod len.
Proof.
  intros Hk. pose proof (lookup_lt_Some _ _ _ Hk) as Hlt.
  unfold backward_from in Hlt. rewrite length_fmap, length_seq in Hlt.
  assert (Z.of_nat k < len) as Hk' by lia.
  rewrite (backward_from_lookup _ _ Hk') in Hk. split; congruence.
Qed.

(** A cyclic scan visits every index of the collection. *)
Lemma forward_from_covers start i :
  0 <= i < len -> i ∈ forward_from r start.
Proof.
  intros Hi.
  assert (0 <= (i - start) mod len < len) as Hk
    by (apply Z.mod_pos_bound; lia).
  apply (list_elem_of_lookup_2 _ (Z.to_nat ((i - start) mod len))).
  rewrite forward_from_lookup by lia. f_equal.
  rewrite Z2Nat.id by lia. rewrite Z.add_mod_idemp_r by lia.
  replace (start + (i - start)) with i by lia. apply Z.mod_small. lia.
Qed.

Lemma backward_from_covers start i :
  0 <= i < len -> i ∈ backward_from r start.
Proof.
  intros Hi.
  assert (0 <= (start - i) mod len < len) as Hk
    by (apply Z.mod_pos_bound; lia).
  apply (list_elem_of_lookup_2 _ (Z.to_nat ((start - i) mod len))).
  rewrite backward_from_lookup by lia. f_equal.
  rewrite Z2Nat.id by lia. rewrite Zminus_mod_idemp_r.
  replace (start - (start - i)) with i by lia. apply Z.mod_small. lia.
Qed.

(** So a scan finds an enabled index as soon as there is one. *)
Lemma scan_forward_finds start i :
  enabled_at r i = true ->
  exists j, first_enabled r (forward_from r start) = Some j
            /\ enabled_at r j = true.
Proof.
  intros Hi.
  destruct (first_enabled r (forward_from r start)) as [j|] eqn:E.
  - exists j. split; [reflexivity|]. by apply first_enabled_Some in E as [? _].
  - pose proof (first_enabled_None _ i E
                  (forward_from_covers start i (enabled_at_range i Hi))).
    congruence.
Qed.

Lemma scan_backward_finds start i :
  enabled_at r i = true ->
  exists j, first_enabled r (backward_from r start) = Some j
            /\ enabled_at r j = true.
Proof.
  intros Hi.
  destruct (first_enabled r (backward_from r start)) as [j|] eqn:E.
  - exists j. split; [reflexivity|]. by apply first_enabled_Some in E as [? _].
  - pose proof (first_enabled_None _ i E
                  (backward_from_covers start i (enabled_at_range i Hi))).
    congruence.
Qed.

Lemma scan_all_disabled cands :
  (forall i, enabled_at r i = false) -> first_enabled r cands = None.
Proof.
  intros Hall. destruct (first_enabled r cands) as [j|] eqn:E; [|done].
  apply first_enabled_Some in E as [E _]. rewrite Hall in E. discriminate.
Qed.

(** From the last enabled index a forward scan wraps to the first one. *)
Lemma scan_forward_wraps l f :
  enabled_at r l = true -> (forall j, l < j -> enabled_at r j = false) ->
  enabled_at r f = true -> (forall j, j < f -> enabled_at r j = false) ->
  first_enabled r (forward_from r (l + 1)) = Some f.
Proof.
  intros Hl Hlast Hf Hfirst.
  pose proof (enabled_at_range _ Hl) as Rl.
  pose proof (enabled_at_range _ Hf) as Rf.
  assert (f <= l) as Hfl.
  { destruct (Z_le_gt_dec f l); [done|].
    rewrite Hlast in Hf by lia. discriminate. }
  apply (first_enabled_at _ (Z.to_nat (len - 1 - l + f))).
  - rewrite forward_from_lookup by lia. f_equal.
    rewrite Z2Nat.id by lia.
    replace (l + 1 + (len - 1 - l + f)) with (f + 1 * len) by lia.
    rewrite Z_mod_plus_full. apply Z.mod_small. lia.
  - exact Hf.
  - intros j y Hj Hjk. apply forward_from_lookup_inv in Hj as [Hj ->].
    destruct (Z_lt_ge_dec (l + 1 + Z.of_nat j) len).
    + rewrite Z.mod_small by lia. apply Hlast. lia.
    + replace (l + 1 + Z.of_nat j)
        with ((l + 1 + Z.of_nat j - len) + 1 * len) by lia.
      rewrite Z_mod_plus_full. rewrite Z.mod_small by lia.
      apply Hfirst. lia.
Qed.

(** From the first enabled index a backward scan wraps to the last one. *)
Lemma scan_backward_wraps l f :
  enabled_at r l = true -> (forall j, l < j -> enabled_at r j = false) ->
  enabled_at r f = true -> (forall j, j < f -> enabled_at r j = false) ->
  first_enabled r (backward_from r (f - 1)) = Some l.
Proof.
  intros Hl Hlast Hf Hfirst.
  pose proof (enabled_at_range _ Hl) as Rl.
  pose proof (enabled_at_range _ Hf) as Rf.
  assert (f <= l) as Hfl.
  { destruct (Z_le_gt_dec f l); [done|].
    rewrite Hlast in Hf by lia. discriminate. }
  apply (first_enabled_at _ (Z.to_nat (f - 1 + len - l))).
  - rewrite backward_from_lookup by lia. f_equal.
    rewrite Z2Nat.id by lia.
    replace (f - 1 - (f - 1 + len - l)) with (l + (-1) * len) by lia.
    rewrite Z_mod_plus_full. apply Z.mod_small. lia.
  - exact Hl.
  - intros j y Hj Hjk. apply backward_from_lookup_inv in Hj as [Hj ->].
    destruct (Z_lt_ge_dec (f - 1 - Z.of_nat j) 0).
    + replace (f - 1 - Z.of_nat j)
        with ((f - 1 - Z.of_nat j + len) + (-1) * len) by lia.
      rewrite Z_mod_plus_full. rewrite Z.mod_small by lia.
      apply Hlast. lia.
    + rewrite Z.mod_small by lia. apply Hfirst. lia.
Qed.

(** The resolver answers null, the current index, or an enabled index. *)
Lemma calculateActiveIndex_cases nf action :
  calculateActiveIndex nf action r = None
  \/ calculateActiveIndex nf action r = resolveActiveIndex r tt
  \/ exists i, calculateActiveIndex nf action r = Some i
               /\ enabled_at r i = true.
Proof.
  assert (forall cands,
            first_enabled r cands = None
            \/ exists i, first_enabled r cands = Some i
                         /\ enabled_at r i = true) as Hscan.
  { intros cands. destruct (first_enabled r cands) as [i|] eqn:E; [|by left].
    right. exists i. split; [done|]. by apply first_enabled_Some in E as [? _]. }
  assert (forall cands,
            match first_enabled r cands with
            | Some i => Some i
            | None => none_found r nf
            end = None
            \/ match first_enabled r cands with
               | Some i => Some i
               | None => none_found r nf
               end = resolveActiveIndex r tt
            \/ exists i, match first_enabled r cands with
                         | Some i => Some i
                         | None => none_found r nf
                         end = Some i /\ enabled_at r i = true) as Hscan'.
  { intros cands. destruct (Hscan cands) as [->|(i & -> & Hi)].
    - destruct nf; cbn; auto.
    - right. right. by exists i. }
  unfold calculateActiveIndex. destruct action.
  - destruct (Hscan (forward_from r 0)) as [->|?]; auto.
  - destruct (resolveActiveIndex r tt); [apply Hscan'|].
    destruct (Hscan (backward_from r
              (Z.of_nat (length (resolveItems r tt)) - 1))) as [->|?]; auto.
  - destruct (resolveActiveIndex r tt); [apply Hscan'|].
    destruct (Hscan (forward_from r 0)) as [->|?]; auto.
  - destruct (Hscan (backward_from r
              (Z.of_nat (length (resolveItems r tt)) - 1))) as [->|?]; auto.
  - cbv zeta. destruct (_ =? -1); [auto|].
    destruct (enabled_at r _) eqn:E; [|auto].
    right. right. eauto.
  - auto.
Qed.

End ResolverFacts.

Lemma enabled_iff σ (state : Obj StateDefinition) i :
  enabled σ (val state) i <-> enabled_at (reducers.resolvers σ state) i = true.
Proof.
  unfold enabled, enabled_at. cbn. split.
  - intros (item & -> & Hd). by rewrite Hd.
  - destruct (nth_Z (items (val state)) i) as [item|]; [|discriminate].
    intros Hd. exists item. split; [done|]. by apply negb_true_iff.
Qed.

Lemma not_enabled_iff σ (state : Obj StateDefinition) i :
  ~ enabled σ (val state) i <-> enabled_at (reducers.resolvers σ state) i = false.
Proof.
  rewrite enabled_iff. destruct (enabled_at _ i); split; congruence.
Qed.

Lemma go_resolved nf σ state h focus :
  go nf σ state h focus
  = calculateActiveIndex nf focus (reducers.resolvers σ state).
Proof. apply GoToItem_active. Qed.

(** C2: over the resolver of the specification.  When some item is enabled,
    [GoToItem Next] from the last enabled index gives the first enabled
    index, [GoToItem Previous] from the first gives the last, and from any
    current index both give the index of an enabled item.  When every item
    is disabled both give null or the current index. *)
Theorem GoToItem_Next_Previous_wrap_and_skip
    nf σ (state : Obj StateDefinition) (h : addr) :
  ((exists i, enabled σ (val state) i) ->
     (forall l f,
        enabled σ (val state) l ->
        (forall j, l < j -> ~ enabled σ (val state) j) ->
        enabled σ (val state) f ->
        (forall j, j < f -> ~ enabled σ (val state) j) ->
        (activeItemIndex (val state) = Some l ->
         go nf σ state h Focus.Next = Some f)
        /\ (activeItemIndex (val state) = Some f ->
            go nf σ state h Focus.Previous = Some l))
     /\ (exists i, go nf σ state h Focus.Next = Some i
                   /\ enabled σ (val state) i)
     /\ (exists i, go nf σ state h Focus.Previous = Some i
                   /\ enabled σ (val state) i))
  /\ ((forall i, ~ enabled σ (val state) i) ->
      (go nf σ state h Focus.Next = None
       \/ go nf σ state h Focus.Next = activeItemIndex (val state))
      /\ (go nf σ state h Focus.Previous = None
          \/ go nf σ state h Focus.Previous = activeItemIndex (val state))).
Proof.
  rewrite !go_resolved. split.
  - intros [i0 Hi0]. apply enabled_iff in Hi0. split; [|split].
    + intros l f Hl Hlast Hf Hfirst.
      apply enabled_iff in Hl, Hf.
      assert (forall j, l < j ->
                enabled_at (reducers.resolvers σ state) j = false) as Hlast'
        by (intros j Hj; apply not_enabled_iff, Hlast, Hj).
      assert (forall j, j < f ->
                enabled_at (reducers.resolvers σ state) j = false) as Hfirst'
        by (intros j Hj; apply not_enabled_iff, Hfirst, Hj).
      split; intros Hcur; unfold calculateActiveIndex; cbn [resolveActiveIndex
        reducers.resolvers]; rewrite Hcur.
      * by rewrite (scan_forward_wraps _ l f).
      * by rewrite (scan_backward_wraps _ l f).
    + unfold calculateActiveIndex.
      destruct (resolveActiveIndex _ tt) as [c|].
      * destruct (scan_forward_finds _ (c + 1) i0 Hi0) as (j & -> & Hj).
        exists j. by rewrite enabled_iff.
      * destruct (scan_forward_finds _ 0 i0 Hi0) as (j & -> & Hj).
        exists j. by rewrite enabled_iff.
    + unfold calculateActiveIndex.
      destruct (resolveActiveIndex _ tt) as [c|].
      * destruct (scan_backward_finds _ (c - 1) i0 Hi0) as (j & -> & Hj).
        exists j. by rewrite enabled_iff.
      * destruct (scan_backward_finds _
                    (Z.of_nat (length (resolveItems
                       (reducers.resolvers σ state) tt)) - 1) i0 Hi0)
          as (j & -> & Hj).
        exists j. by rewrite enabled_iff.
  - intros Hall.
    assert (forall i, enabled_at (reducers.resolvers σ state) i = false)
      as Hall' by (intros i; apply not_enabled_iff, Hall).
    unfold calculateActiveIndex.
    destruct (resolveActiveIndex _ tt) as [c|] eqn:Ec;
      pose proof Ec as Ec'; cbn in Ec'; rewrite Ec'.
    + rewrite (scan_all_disabled _ (forward_from _ (c + 1)) Hall'),
        (scan_all_disabled _ (backward_from _ (c - 1)) Hall').
      destruct nf; cbn [none_found]; rewrite ?Ec; auto.
    + rewrite (scan_all_disabled _ (forward_from _ 0) Hall'),
        (scan_all_disabled _ (backward_from _ _) Hall'). auto.
Qed.

Lemma GoToItem_Next_Previous_wrap_and_skip_witness :
  go ResultNull last_disabled_store (sample MenuStates.Open "" (Some 1)) 5%nat
    Focus.Next = Some 0
  /\ (go ResultUnchanged all_disabled_store
        (sample MenuStates.Open "" (Some 1)) 5%nat Focus.Next = None
      \/ go ResultUnchanged all_disabled_store
           (sample MenuStates.Open "" (Some 1)) 5%nat Focus.Next = Some 1).
Proof.
  split.
  - destruct (GoToItem_Next_Previous_wrap_and_skip ResultNull
                last_disabled_store (sample MenuStates.Open "" (Some 1)) 5%nat)
      as [H _].
    destruct H as [H _].
    { exists 0, itemA. split; reflexivity. }
    apply (H 1 0); try reflexivity.
    + exists itemB. split; reflexivity.
    + intros j Hj (item & Hnth & Hdis).
      apply nth_Z_Some in Hnth as [Hr Hl]. cbn in Hr.
      assert (j = 2) as -> by lia. cbn in Hl. injection Hl as <-.
      vm_compute in Hdis. discriminate Hdis.
    + exists itemA. split; reflexivity.
    + intros j Hj (item & Hnth & _).
      apply nth_Z_Some in Hnth as [Hr _]. lia.
  - destruct (GoToItem_Next_Previous_wrap_and_skip ResultUnchanged
                all_disabled_store (sample MenuStates.Open "" (Some 1)) 5%nat)
      as [_ H].
    apply H. intros i (item & Hnth & Hdis).
    apply nth_Z_Some in Hnth as [Hr Hl]. cbn in Hr.
    assert (i = 0 \/ i = 1 \/ i = 2) as [->|[->| ->]] by lia;
      cbn in Hl; injection Hl as <-; vm_compute in Hdis; discriminate Hdis.
Defined.

(** ** The active index stays valid *)

Section Invariant.
Variable σ : Store.
Implicit Types (state : Obj StateDefinition) (h : addr).

(** After [UnregisterItem] a non-null active index points at the object
    the active index pointed at before. *)
Lemma UnregisterItem_active_same_object state d h j :
  valid_active (val state) ->
  activeItemIndex (val (fst (reducers.UnregisterItem state d h))) = Some j ->
  exists a o o',
    activeItemIndex (val state) = Some a
    /\ nth_Z (items (val state)) a = Some o
    /\ nth_Z (items (val (fst (reducers.UnregisterItem state d h)))) j
       = Some o'
    /\ addr_of o' = addr_of o.
Proof.
  unfold valid_active, reducers.UnregisterItem, new.
  cbn [fst val items activeItemIndex].
  destruct (activeItemIndex (val state)) as [a|];
    [|rewrite bool_decide_eq_false_2 by discriminate; discriminate].
  intros Hvalid.
  destruct (nth_Z_in_range _ _ Hvalid) as [o Ho]. rewrite Ho.
  case_bool_decide as Hidx; [discriminate|].
  intros [= <-]. exists a, o.
  destruct (findIndex_cases (fun x => String.eqb (Item.id (val x)) d)
              (items (val state))) as [[Hi _]|(i & x & Hi & _)];
    rewrite Hi in *.
  - change (-1 =? -1) with true. cbv iota.
    pose proof (nth_Z_Some _ _ _ Ho) as [_ Hl].
    destruct (indexOf_lookup _ _ _ Hl) as (j & o' & Hj & _ & Hlook & Haddr & _).
    cbn [indexOf] in Hj. exists o'. rewrite Hj, nth_Z_of_nat. auto.
  - assert ((Z.of_nat i =? -1) = false) as -> by (apply Z.eqb_neq; lia).
    unfold splice1. rewrite Nat2Z.id.
    assert (a <> Z.of_nat i) as Hne by (intros ->; by apply Hidx).
    destruct (lookup_delete_shifted _ i a o Ho Hne) as [_ Hsh].
    destruct (indexOf_lookup _ _ _ Hsh) as (j & o' & Hj & _ & Hlook & Haddr & _).
    cbn [indexOf] in Hj. exists o'. rewrite Hj, nth_Z_of_nat. auto.
Qed.

Lemma Search_valid state value h :
  valid_active (val state) ->
  valid_active (val (fst (reducers.Search σ state value h))).
Proof.
  unfold valid_active, reducers.Search. intros Hvalid.
  pose proof (findIndex_range
                (reducers.Search_matches σ
                   (String.append (searchQuery (val state)) value))
                (items (val state))) as Hr.
  destruct (Z.eqb_spec
              (findIndex
                 (reducers.Search_matches σ
                    (String.append (searchQuery (val state)) value))
                 (items (val state))) (-1)) as [E|E]; cbn.
  - exact Hvalid.
  - case_bool_decide; cbn; [exact Hvalid|lia].
Qed.

Lemma GoToItem_valid nf state focus h :
  valid_active (val state) ->
  valid_active
    (val (fst (reducers.GoToItem (calculateActiveIndex nf) σ state focus h))).
Proof.
  unfold valid_active. intros Hvalid.
  rewrite GoToItem_active, GoToItem_items.
  destruct (calculateActiveIndex_cases (reducers.resolvers σ state) nf focus)
    as [->|[->|(i & -> & Hi)]]; [done|exact Hvalid|].
  apply enabled_at_range in Hi. exact Hi.
Qed.

End Invariant.

(** C9: every action keeps the active index null or inside the collection
    ([GoToItem] over the resolver of the specification); and the two actions
    that change the collection leave a non-null active index on the object it
    was on. *)
Theorem reducers_preserve_valid_active
    nf σ (state : Obj StateDefinition) (action : ActionTypes.t) (h : addr) :
  valid_active (val state) ->
  let s' := val (fst (menuReducer nf σ state action h)) in
  valid_active s'
  /\ (changes_collection action ->
      forall j, activeItemIndex s' = Some j ->
        exists a o o',
          activeItemIndex (val state) = Some a
          /\ nth_Z (items (val state)) a = Some o
          /\ nth_Z (items s') j = Some o'
          /\ addr_of o' = addr_of o).
Proof.
  intros Hvalid. destruct action; cbn zeta; unfold menuReducer, stateReducer.
  - split; [|intros []]. unfold reducers.OpenMenu.
    by destruct (menuState (val state)).
  - split; [|intros []]. unfold reducers.CloseMenu.
    by destruct (menuState (val state)).
  - split; [|intros []]. by apply GoToItem_valid.
  - split; [|intros []]. by apply Search_valid.
  - split; [|intros []]. unfold reducers.ClearSearch.
    by destruct (String.eqb _ _).
  - unfold valid_active in *. cbn.
    destruct (activeItemIndex (val state)) as [a|]; [|split; [done|]; discriminate].
    split.
    + rewrite length_app. cbn. lia.
    + intros _ j [= <-]. destruct (nth_Z_in_range _ _ Hvalid) as [o Ho].
      exists a, o, o. repeat split; auto.
      apply nth_Z_Some in Ho as [Hr Hl]. unfold nth_Z.
      destruct (Z.ltb_spec a 0); [lia|]. by apply lookup_app_l_Some.
  - split.
    + unfold valid_active.
      destruct (activeItemIndex (val (fst (reducers.UnregisterItem state id h))))
        as [j|] eqn:E; [|done].
      destruct (UnregisterItem_active_same_object state id h j Hvalid E)
        as (_ & _ & o' & _ & _ & Hj & _).
      by apply nth_Z_Some in Hj as [? _].
    + intros _ j Hj. by apply UnregisterItem_active_same_object.
Qed.

Lemma reducers_preserve_valid_active_witness :
  let state := sample MenuStates.Open "" (Some 2) in
  valid_active (val state)
  /\ valid_active (val (fst (menuReducer ResultNull sample_store state
                               (ActionTypes.UnregisterItem "C") 5%nat)))
  /\ valid_active (val (fst (menuReducer ResultNull sample_store state
                               (ActionTypes.UnregisterItem "B") 5%nat))).
Proof.
  assert (valid_active (val (sample MenuStates.Open "" (Some 2)))) as Hv
    by (cbn; lia).
  split; [exact Hv|]. split.
  - apply (reducers_preserve_valid_active ResultNull sample_store
             (sample MenuStates.Open "" (Some 2))
             (ActionTypes.UnregisterItem "C") 5%nat Hv).
  - apply (reducers_preserve_valid_active ResultNull sample_store
             (sample MenuStates.Open "" (Some 2))
             (ActionTypes.UnregisterItem "B") 5%nat Hv).
Defined.

(** The entries of the collection are distinct objects in every state the
    reducer builds: a registration allocates its entry. *)
Lemma reducers_preserve_distinct_objects
    calc σ (state : Obj StateDefinition) (action : ActionTypes.t) (h : addr) :
  distinct_objects (val state) -> allocated_below h (val state) ->
  distinct_objects (val (fst (stateReducer calc σ state action h)))
  /\ allocated_below (snd (stateReducer calc σ state action h))
       (val (fst (stateReducer calc σ state action h)))
  /\ (h <= snd (stateReducer calc σ state action h))%nat.
Proof.
  unfold distinct_objects, allocated_below. intros Hnd Hbelow.
  assert (forall h', (h <= h')%nat ->
            Forall (fun o : Obj Item.t => (addr_of o < h')%nat)
              (items (val state))) as Hmono.
  { intros h' Hh. eapply Forall_impl; [exact Hbelow|]. cbn. intros; lia. }
  destruct action; cbn.
  - unfold reducers.OpenMenu. destruct (menuState (val state)); cbn; auto.
  - unfold reducers.CloseMenu. destruct (menuState (val state)); cbn; auto.
  - unfold reducers.GoToItem.
    destruct (String.eqb _ _ && bool_decide _)%bool; cbn; auto.
  - unfold reducers.Search.
    destruct ((_ =? -1) || bool_decide _)%bool; cbn; auto.
  - unfold reducers.ClearSearch. destruct (String.eqb _ _); cbn; auto.
  - split; [|split; [|lia]].
    + rewrite fmap_app. apply NoDup_app. split; [exact Hnd|]. split.
      * intros a Ha Hh. cbn in Hh. apply list_elem_of_singleton in Hh as ->.
        apply list_elem_of_fmap in Ha as (o & -> & Ho).
        rewrite Forall_forall in Hbelow. specialize (Hbelow o Ho). lia.
      * cbn. apply NoDup_singleton.
    + apply Forall_app. split; [apply Hmono; lia|].
      apply Forall_singleton. cbn. lia.
  - destruct (_ =? -1).
    + auto.
    + split; [by apply NoDup_addr_delete|]. split; [|lia].
      unfold splice1. apply Forall_forall. intros o Ho.
      apply list_elem_of_delete_inv in Ho.
      pose proof (Hmono (S h) (Nat.le_succ_diag_r h)) as Hall.
      rewrite Forall_forall in Hall. by apply Hall.
Qed.

(** ** Type-ahead search *)

(** What [Search] does: the query grows by the typed text whatever the
    outcome; the first entry, in collection order, whose bag is not disabled
    and whose [textValue] starts with the new query becomes the active one;
    without such an entry the active index is kept. *)
Lemma Search_behaviour σ (state : Obj StateDefinition) (value : string) (h : addr) :
  let query := String.append (searchQuery (val state)) value in
  let s' := val (fst (reducers.Search σ state value h)) in
  searchQuery s' = query
  /\ items s' = items (val state)
  /\ (Forall (fun item => reducers.Search_matches σ query item = false)
        (items (val state)) ->
      activeItemIndex s' = activeItemIndex (val state))
  /\ (forall (i : nat) item,
        items (val state) !! i = Some item ->
        reducers.Search_matches σ query item = true ->
        (forall (j : nat) y, items (val state) !! j = Some y -> (j < i)%nat ->
                             reducers.Search_matches σ query y = false) ->
        activeItemIndex s' = Some (Z.of_nat i)).
Proof.
  cbv zeta. unfold reducers.Search.
  set (query := String.append (searchQuery (val state)) value).
  split; [by destruct ((_ =? -1) || bool_decide _)%bool|].
  split; [by destruct ((_ =? -1) || bool_decide _)%bool|].
  split.
  - intros Hall.
    assert (findIndex (reducers.Search_matches σ query) (items (val state)) = -1)
      as ->; [|reflexivity].
    destruct (findIndex_cases (reducers.Search_matches σ query)
                (items (val state))) as [[E _]|(i & x & _ & Hl & Hx & _)];
      [exact E|].
    rewrite Forall_forall in Hall.
    rewrite (Hall x (list_elem_of_lookup_2 _ _ _ Hl)) in Hx. discriminate.
  - intros i item Hl Hm Hfirst.
    rewrite (findIndex_first _ _ i item Hl Hm Hfirst).
    assert ((Z.of_nat i =? -1) = false) as -> by (apply Z.eqb_neq; lia).
    cbn [orb]. case_bool_decide as E; cbn; [exact E|reflexivity].
Qed.

(** A disabled entry does not match, whatever the query and its text. *)
Lemma Search_never_matches_disabled σ query item :
  disabled (σ (Item.dataRef (val item))) = true ->
  reducers.Search_matches σ query item = false.
Proof.
  intros Hd. unfold reducers.Search_matches. rewrite Hd.
  by destruct (textValue _); [destruct (startsWith _ _)|].
Qed.


(** C4, on the code: the typed capital letter "H" is appended to the query
    as it is, while the bags hold lowercased text; so "Home delivery", which
    is enabled and starts with "H" when case is ignored, is not matched, and
    the active index stays null. *)
Theorem Search_capital_letter_matches_nothing :
  let state := sample MenuStates.Open "" None in
  let s' := val (fst (menuReducer ResultNull sample_store state
                        (ActionTypes.Search "H") 5%nat)) in
  searchQuery s' = "H"
  /\ activeItemIndex s' = None
  /\ items (val state) !! 1%nat = Some itemB
  /\ textValue (sample_store (Item.dataRef (val itemB)))
     = Some (toLowerCase "Home delivery")
  /\ disabled (sample_store (Item.dataRef (val itemB))) = false
  /\ startsWith_ignoring_case "Home delivery" "H" = true
  /\ startsWith_ignoring_case "Pickup" "H" = false
  /\ activeItemIndex
       (val (fst (menuReducer ResultNull sample_store state
                    (ActionTypes.Search "h") 5%nat))) = Some 1.
Proof. vm_compute. repeat split. Qed.

(** ** Further properties of the reducers *)

(** Each action writes only its own fields: no action changes the two
    element handles; only [OpenMenu] and [CloseMenu] change the menu state;
    only [RegisterItem] and [UnregisterItem] change the collection; the query
    is changed by [GoToItem], [Search] and [ClearSearch] alone; and
    [OpenMenu], [ClearSearch] and [RegisterItem] keep the active index. *)
Theorem reducers_write_only_their_fields
    calc σ (state : Obj StateDefinition) (action : ActionTypes.t) (h : addr) :
  let s' := val (fst (stateReducer calc σ state action h)) in
  buttonRef s' = buttonRef (val state)
  /\ itemsRef s' = itemsRef (val state)
  /\ match action with
     | ActionTypes.OpenMenu | ActionTypes.CloseMenu => True
     | _ => menuState s' = menuState (val state)
     end
  /\ match action with
     | ActionTypes.RegisterItem _ _ | ActionTypes.UnregisterItem _ => True
     | _ => items s' = items (val state)
     end
  /\ match action with
     | ActionTypes.GoToItem _ | ActionTypes.Search _
     | ActionTypes.ClearSearch => True
     | _ => searchQuery s' = searchQuery (val state)
     end
  /\ match action with
     | ActionTypes.OpenMenu | ActionTypes.ClearSearch
     | ActionTypes.RegisterItem _ _ =>
         activeItemIndex s' = activeItemIndex (val state)
     | _ => True
     end.
Proof.
  destruct action; cbn.
  - unfold reducers.OpenMenu. by destruct (menuState (val state)).
  - unfold reducers.CloseMenu. by destruct (menuState (val state)).
  - unfold reducers.GoToItem.
    by destruct (String.eqb _ _ && bool_decide _)%bool.
  - unfold reducers.Search.
    by destruct ((_ =? -1) || bool_decide _)%bool.
  - unfold reducers.ClearSearch. by destruct (String.eqb _ _).
  - done.
  - done.
Qed.

(** An action returns either the state object it was given, allocating
    nothing, or an object allocated by this very dispatch, so a different
    one; [Search], [RegisterItem] and [UnregisterItem] always return a new
    object, even when the values in it are those of the old one. *)
Theorem reducers_return_given_or_new_object
    calc σ (state : Obj StateDefinition) (action : ActionTypes.t) (h : addr) :
  (addr_of state < h)%nat ->
  let out := stateReducer calc σ state action h in
  (out = (state, h)
   \/ ((h <= addr_of (fst out) < snd out)%nat /\ (snd out <= h + 2)%nat
       /\ fst out <> state))
  /\ match action with
     | ActionTypes.Search _ | ActionTypes.RegisterItem _ _
     | ActionTypes.UnregisterItem _ => fst out <> state
     | _ => True
     end.
Proof.
  intros Hh.
  assert (forall v a, (h <= a)%nat -> mkObj a v <> state) as Hnew.
  { intros v a Ha E. rewrite <- E in Hh. cbn in Hh. lia. }
  destruct action; cbn.
  - unfold reducers.OpenMenu. destruct (menuState (val state)); cbn;
      (split; [|done]); [by left|right]. repeat split; try lia. by apply Hnew.
  - unfold reducers.CloseMenu. destruct (menuState (val state)); cbn;
      (split; [|done]); [right|by left]. repeat split; try lia. by apply Hnew.
  - unfold reducers.GoToItem.
    destruct (String.eqb _ _ && bool_decide _)%bool; cbn;
      (split; [|done]); [by left|right]. repeat split; try lia. by apply Hnew.
  - unfold reducers.Search.
    destruct ((_ =? -1) || bool_decide _)%bool; cbn;
      (split; [right; repeat split; try lia|]); by apply Hnew.
  - unfold reducers.ClearSearch. destruct (String.eqb _ _); cbn;
      (split; [|done]); [by left|right]. repeat split; try lia. by apply Hnew.
  - split; [right; repeat split; try lia|]; apply Hnew; lia.
  - split; [right; repeat split; try lia|]; by apply Hnew.
Qed.

Lemma reducers_return_given_or_new_object_witness :
  let state := sample MenuStates.Open "" (Some 2) in
  fst (menuReducer ResultNull sample_store state
         (ActionTypes.UnregisterItem "Z") 5%nat) <> state
  /\ val (fst (menuReducer ResultNull sample_store state
                 (ActionTypes.UnregisterItem "Z") 5%nat)) = val state.
Proof.
  split; [|reflexivity].
  apply (reducers_return_given_or_new_object (calculateActiveIndex ResultNull)
           sample_store (sample MenuStates.Open "" (Some 2))
           (ActionTypes.UnregisterItem "Z") 5%nat).
  cbn. lia.
Defined.

Lemma reducers_preserve_distinct_objects_witness :
  let out := menuReducer ResultNull sample_store
               (sample MenuStates.Open "" None)
               (ActionTypes.RegisterItem "A" 11%nat) 5%nat in
  distinct_objects (val (fst out)) /\ allocated_below (snd out) (val (fst out)).
Proof.
  destruct (reducers_preserve_distinct_objects (calculateActiveIndex ResultNull)
              sample_store (sample MenuStates.Open "" None)
              (ActionTypes.RegisterItem "A" 11%nat) 5%nat) as (H1 & H2 & _).
  - unfold distinct_objects. apply (bool_decide_unpack _). vm_compute. exact I.
  - unfold allocated_below. cbn. repeat constructor; cbn; lia.
  - split; [exact H1|exact H2].
Defined.

(** Whatever is dispatched and whatever the resolver answers, a collection
    of distinct objects stays one, from the initial state of a menu on: no
    object ever sits twice in the collection. *)
Theorem dispatch_all_distinct_objects
    calc (state : Obj StateDefinition) (events : list (Store * ActionTypes.t))
    (h : addr) :
  distinct_objects (val state) -> allocated_below h (val state) ->
  let out := dispatch_all calc state events h in
  distinct_objects (val (fst out))
  /\ allocated_below (snd out) (val (fst out))
  /\ (h <= snd out)%nat.
Proof.
  cbv zeta. revert state h.
  induction events as [|[σ action] rest IH]; intros state h Hd Hb.
  - cbn. auto.
  - cbn. unfold bind.
    pose proof (reducers_preserve_distinct_objects calc σ state action h Hd Hb)
      as (Hd' & Hb' & Hle).
    destruct (stateReducer calc σ state action h) as [s' h']. cbn in *.
    destruct (IH s' h' Hd' Hb') as (H1 & H2 & H3).
    repeat split; auto. lia.
Qed.

Lemma dispatch_all_distinct_objects_witness :
  distinct_objects
    (val (fst (dispatch_all (calculateActiveIndex ResultNull)
                 (mkObj 0%nat (initial_state 20%nat 21%nat))
                 [(sample_store, ActionTypes.RegisterItem "A" 11%nat);
                  (sample_store, ActionTypes.RegisterItem "A" 11%nat);
                  (sample_store, ActionTypes.UnregisterItem "A")] 1%nat))).
Proof.
  apply (dispatch_all_distinct_objects (calculateActiveIndex ResultNull)
           (mkObj 0%nat (initial_state 20%nat 21%nat))
           [(sample_store, ActionTypes.RegisterItem "A" 11%nat);
            (sample_store, ActionTypes.RegisterItem "A" 11%nat);
            (sample_store, ActionTypes.UnregisterItem "A")] 1%nat).
  - unfold distinct_objects. cbn. apply NoDup_nil_2.
  - unfold allocated_below. cbn. apply Forall_nil_2.
Defined.

(** One dispatch keeps the active index valid for any resolver that answers
    null, the current index or an index of the collection. *)
Lemma stateReducer_valid_active
    calc σ (state : Obj StateDefinition) (action : ActionTypes.t) (h : addr) :
  answers_in_range calc -> valid_active (val state) ->
  valid_active (val (fst (stateReducer calc σ state action h))).
Proof.
  intros Hcalc Hvalid. destruct action; unfold stateReducer.
  - unfold reducers.OpenMenu. by destruct (menuState (val state)).
  - unfold reducers.CloseMenu. by destruct (menuState (val state)).
  - unfold valid_active in *. rewrite GoToItem_active, GoToItem_items.
    specialize (Hcalc focus (reducers.resolvers σ state)).
    destruct (calc focus (reducers.resolvers σ state)) as [i|]; [|done].
    cbn in Hcalc. destruct Hcalc as [E|R]; [|exact R].
    by rewrite E in Hvalid.
  - by apply Search_valid.
  - unfold reducers.ClearSearch. by destruct (String.eqb _ _).
  - unfold valid_active in *. cbn.
    destruct (activeItemIndex (val state)); [|done].
    rewrite length_app. cbn. lia.
  - unfold valid_active.
    destruct (activeItemIndex (val (fst (reducers.UnregisterItem state id h))))
      as [j|] eqn:E; [|done].
    destruct (UnregisterItem_active_same_object state id h j Hvalid E)
      as (_ & _ & o' & _ & _ & Hj & _).
    by apply nth_Z_Some in Hj as [? _].
Qed.

Lemma modelled_resolver_answers_in_range nf :
  answers_in_range (calculateActiveIndex nf).
Proof.
  intros focus r.
  destruct (calculateActiveIndex_cases r nf focus) as [->|[E|(i & -> & Hi)]].
  - done.
  - destruct (calculateActiveIndex nf focus r); [|done]. by left.
  - right. by apply enabled_at_range.
Qed.

(** The active item as each [Item] computes it throws exactly when the
    active index points at no entry. *)
Theorem Item_active_throws_iff_dangling (s : StateDefinition) (id : string) :
  Item_active s id = TypeError <-> ~ valid_active s.
Proof.
  unfold Item_active, valid_active.
  destruct (activeItemIndex s) as [i|]; [|split; [discriminate|tauto]].
  destruct (nth_Z (items s) i) as [item|] eqn:E.
  - apply nth_Z_Some in E as [R _]. split; [discriminate|tauto].
  - split; [|done]. intros _ R.
    destruct (nth_Z_in_range _ _ R) as [x Hx]. congruence.
Qed.

Lemma Item_active_throws_iff_dangling_witness :
  Item_active (val (sample MenuStates.Open "" (Some 7))) "A" = TypeError
  /\ ~ valid_active (val (sample MenuStates.Open "" (Some 7))).
Proof.
  assert (~ valid_active (val (sample MenuStates.Open "" (Some 7)))) as H
    by (cbn; lia).
  split; [|exact H].
  by apply (Item_active_throws_iff_dangling
              (val (sample MenuStates.Open "" (Some 7))) "A").
Defined.

(** An item renders as active exactly when its id is the one the container
    announces in [aria-activedescendant]. *)
Theorem Item_active_agrees_with_aria_activedescendant
    (s : StateDefinition) (id : string) :
  Item_active s id = Got true <-> Items_aria_activedescendant s = Some id.
Proof.
  unfold Item_active, Items_aria_activedescendant.
  destruct (activeItemIndex s) as [i|]; [|split; discriminate].
  destruct (nth_Z (items s) i) as [item|]; [|split; discriminate].
  split.
  - intros [= E]. apply String.eqb_eq in E. by rewrite E.
  - intros [= E]. rewrite E. by rewrite String.eqb_refl.
Qed.

Lemma Item_active_agrees_with_aria_activedescendant_witness :
  Items_aria_activedescendant (val (sample MenuStates.Open "" (Some 1)))
  = Some "B"
  /\ Item_active (val (sample MenuStates.Open "" (Some 1))) "B" = Got true.
Proof.
  split; [reflexivity|].
  by apply (Item_active_agrees_with_aria_activedescendant
              (val (sample MenuStates.Open "" (Some 1))) "B").
Defined.

(** With a resolver that answers null, the current index or an index of the
    collection, a valid active index stays valid through any sequence of
    dispatches, from the initial state of a menu on; so no [Item] throws when
    it computes whether it is the active one. *)
Theorem dispatch_all_valid_active
    calc (state : Obj StateDefinition) (events : list (Store * ActionTypes.t))
    (h : addr) :
  answers_in_range calc -> valid_active (val state) ->
  let s := val (fst (dispatch_all calc state events h)) in
  valid_active s /\ forall id, Item_active s id <> TypeError.
Proof.
  intros Hcalc Hvalid. cbv zeta.
  assert (valid_active (val (fst (dispatch_all calc state events h)))) as Hv.
  { revert state h Hvalid.
    induction events as [|[σ action] rest IH]; intros state h Hv.
    - exact Hv.
    - cbn. unfold bind.
      pose proof (stateReducer_valid_active calc σ state action h Hcalc Hv)
        as Hv'.
      destruct (stateReducer calc σ state action h) as [s' h']. cbn in *.
      by apply IH. }
  split; [exact Hv|].
  intros id. unfold Item_active. unfold valid_active in Hv.
  destruct (activeItemIndex _) as [i|]; [|discriminate].
  destruct (nth_Z_in_range _ _ Hv) as [x ->]. discriminate.
Qed.

Lemma dispatch_all_valid_active_witness :
  valid_active
    (val (fst (dispatch_all (calculateActiveIndex ResultUnchanged)
                 (mkObj 0%nat (initial_state 20%nat 21%nat))
                 [(sample_store, ActionTypes.RegisterItem "A" 11%nat);
                  (sample_store, ActionTypes.RegisterItem "B" 12%nat);
                  (sample_store, ActionTypes.GoToItem Focus.Last);
                  (sample_store, ActionTypes.UnregisterItem "B")] 1%nat))).
Proof.
  apply (dispatch_all_valid_active (calculateActiveIndex ResultUnchanged)
           (mkObj 0%nat (initial_state 20%nat 21%nat))
           [(sample_store, ActionTypes.RegisterItem "A" 11%nat);
            (sample_store, ActionTypes.RegisterItem "B" 12%nat);
            (sample_store, ActionTypes.GoToItem Focus.Last);
            (sample_store, ActionTypes.UnregisterItem "B")] 1%nat).
  - apply modelled_resolver_answers_in_range.
  - exact I.
Defined.

(** ** Registration and unregistration together *)

(** In a collection without the id, the entry a registration appends is the
    first one with that id. *)
Lemma findIndex_id_appended (l : list (Obj Item.t)) (d : string)
    (x : Obj Item.t) (rest : list (Obj Item.t)) :
  ~ (exists o, o ∈ l /\ Item.id (val o) = d) -> Item.id (val x) = d ->
  findIndex (fun a => String.eqb (Item.id (val a)) d) (l ++ x :: rest)
  = Z.of_nat (length l).
Proof.
  intros Hno Hx. apply (findIndex_first _ _ (length l) x).
  - by rewrite list_lookup_middle.
  - cbn. rewrite Hx. apply String.eqb_refl.
  - intros j y Hj Hlt. rewrite lookup_app_l in Hj by exact Hlt.
    cbn. apply String.eqb_neq. intros E. apply Hno. exists y.
    split; [by eapply list_elem_of_lookup_2|exact E].
Qed.

(** Registering an id that is not in the collection and unregistering it
    again gives back the collection; with a valid active index and distinct
    entries it gives back every value of the state. *)
Theorem RegisterItem_then_UnregisterItem_restores
    calc σ σ' (state : Obj StateDefinition) (id : string) (ref : loc)
    (h : addr) :
  ~ has_id (val state) id ->
  let registered :=
    stateReducer calc σ state (ActionTypes.RegisterItem id ref) h in
  let s'' :=
    val (fst (stateReducer calc σ' (fst registered)
                (ActionTypes.UnregisterItem id) (snd registered))) in
  items s'' = items (val state)
  /\ (valid_active (val state) -> distinct_objects (val state) ->
      s'' = val state).
Proof.
  intros Hno. cbn.
  rewrite (findIndex_id_appended _ id (mkObj h (Item.mk id ref)) [] Hno eq_refl).
  assert ((Z.of_nat (length (items (val state))) =? -1) = false) as ->
    by (apply Z.eqb_neq; lia).
  unfold splice1. rewrite Nat2Z.id, delete_middle, app_nil_r.
  split; [reflexivity|].
  intros Hvalid Hnd. unfold valid_active in Hvalid.
  destruct (val state) as [ms bref iref its q act]. cbn in *. f_equal.
  destruct act as [a|].
  - rewrite bool_decide_eq_false_2 by (intros [= ->]; lia).
    destruct (nth_Z_in_range its a Hvalid) as [o Ho].
    pose proof (nth_Z_Some _ _ _ Ho) as [_ Hl].
    assert (nth_Z (its ++ [mkObj h (Item.mk id ref)]) a = Some o) as ->.
    { unfold nth_Z in *. destruct (a <? 0); [done|]. by apply lookup_app_l_Some. }
    destruct (indexOf_lookup _ _ _ Hl) as (j & o' & Hj & _ & _ & _ & Hsame).
    rewrite Hj, (Hsame Hnd). f_equal. lia.
  - by rewrite bool_decide_eq_false_2.
Qed.

Lemma RegisterItem_then_UnregisterItem_restores_witness :
  let state := sample MenuStates.Open "ho" (Some 2) in
  let registered :=
    menuReducer ResultNull sample_store state
      (ActionTypes.RegisterItem "D" 14%nat) 5%nat in
  val (fst (menuReducer ResultNull sample_store (fst registered)
              (ActionTypes.UnregisterItem "D") (snd registered)))
  = val state.
Proof.
  apply (RegisterItem_then_UnregisterItem_restores
           (calculateActiveIndex ResultNull) sample_store sample_store
           (sample MenuStates.Open "ho" (Some 2)) "D" 14%nat 5%nat).
  - intros (o & Ho & Hid). cbn in Ho.
    rewrite !elem_of_cons, elem_of_nil in Ho.
    destruct Ho as [->|[->|[->|[]]]]; vm_compute in Hid; discriminate Hid.
  - cbn. lia.
  - unfold distinct_objects. apply (bool_decide_unpack _). vm_compute. exact I.
Defined.

(** When an id is registered twice before it is unregistered once, the
    entry that stays is the one of the second registration, with its bag. *)
Theorem duplicate_registration_later_entry_stays
    calc σ1 σ2 σ3 (state : Obj StateDefinition) (id : string)
    (ref1 ref2 : loc) (h : addr) :
  ~ has_id (val state) id ->
  let first :=
    stateReducer calc σ1 state (ActionTypes.RegisterItem id ref1) h in
  let second :=
    stateReducer calc σ2 (fst first) (ActionTypes.RegisterItem id ref2)
      (snd first) in
  let s3 :=
    val (fst (stateReducer calc σ3 (fst second)
                (ActionTypes.UnregisterItem id) (snd second))) in
  items s3 = items (val state) ++ [mkObj (S (S h)) (Item.mk id ref2)].
Proof.
  intros Hno. cbn. rewrite <- app_assoc. cbn.
  rewrite (findIndex_id_appended _ id (mkObj h (Item.mk id ref1)) _ Hno eq_refl).
  assert ((Z.of_nat (length (items (val state))) =? -1) = false) as ->
    by (apply Z.eqb_neq; lia).
  unfold splice1. by rewrite Nat2Z.id, delete_middle.
Qed.

Lemma duplicate_registration_later_entry_stays_witness :
  let state := mkObj 0%nat (initial_state 20%nat 21%nat) in
  let first :=
    menuReducer ResultNull sample_store state
      (ActionTypes.RegisterItem "A" 11%nat) 1%nat in
  let second :=
    menuReducer ResultNull sample_store (fst first)
      (ActionTypes.RegisterItem "A" 12%nat) (snd first) in
  items (val (fst (menuReducer ResultNull sample_store (fst second)
                     (ActionTypes.UnregisterItem "A") (snd second))))
  = [mkObj 3%nat (Item.mk "A" 12%nat)].
Proof.
  apply (duplicate_registration_later_entry_stays
           (calculateActiveIndex ResultNull) sample_store sample_store
           sample_store (mkObj 0%nat (initial_state 20%nat 21%nat))
           "A" 11%nat 12%nat 1%nat).
  intros (o & Ho & _). cbn in Ho. by apply elem_of_nil in Ho.
Defined.

(** The fields [Search] fills in, whichever branch it takes. *)
Lemma Search_fields σ (state : Obj StateDefinition) (value : string) (h : addr) :
  searchQuery (val (fst (reducers.Search σ state value h)))
  = String.append (searchQuery (val state)) value
  /\ items (val (fst (reducers.Search σ state value h))) = items (val state)
  /\ menuState (val (fst (reducers.Search σ state value h)))
     = menuState (val state).
Proof.
  unfold reducers.Search. by destruct ((_ =? -1) || bool_decide _)%bool.
Qed.

Lemma Search_no_match_keeps_active
    σ (state : Obj StateDefinition) (value : string) (h : addr) :
  Forall (fun item =>
            reducers.Search_matches σ
              (String.append (searchQuery (val state)) value) item = false)
    (items (val state)) ->
  activeItemIndex (val (fst (reducers.Search σ state value h)))
  = activeItemIndex (val state).
Proof.
  intros Hall. unfold reducers.Search.
  set (query := String.append (searchQuery (val state)) value) in *.
  assert (findIndex (reducers.Search_matches σ query) (items (val state)) = -1)
    as ->; [|reflexivity].
  destruct (findIndex_cases (reducers.Search_matches σ query)
              (items (val state))) as [[E _]|(i & x & _ & Hl & Hx & _)];
    [exact E|].
  rewrite Forall_forall in Hall.
  rewrite (Hall x (list_elem_of_lookup_2 _ _ _ Hl)) in Hx. discriminate.
Qed.

(** ** Type-ahead over several keystrokes *)

(** A run of [Search] actions leaves in the query the old query followed by
    the typed values in their order, and touches neither the collection nor
    the menu state. *)
Theorem Search_sequence_accumulates
    calc (state : Obj StateDefinition) (typed : list (Store * string))
    (h : addr) :
  let s' :=
    val (fst (dispatch_all calc state
                ((fun p => (fst p, ActionTypes.Search (snd p))) <$> typed) h)) in
  searchQuery s' = foldl String.append (searchQuery (val state)) (snd <$> typed)
  /\ items s' = items (val state)
  /\ menuState s' = menuState (val state).
Proof.
  cbv zeta. revert state h.
  induction typed as [|[σ v] rest IH]; intros state h; [done|].
  cbn. unfold bind.
  pose proof (Search_fields σ state v h) as (Hq & Hi & Hm).
  destruct (reducers.Search σ state v h) as [s1 h1]. cbn in Hq, Hi, Hm.
  destruct (IH s1 h1) as (IHq & IHi & IHm).
  by rewrite IHq, IHi, IHm, Hq, Hi, Hm.
Qed.

(** When [Search] moves the active index, the entry it moves to is not
    disabled, its recorded text starts with the new query, and no entry
    before it is such a match. *)
Theorem Search_moves_only_to_first_enabled_match
    σ (state : Obj StateDefinition) (value : string) (h : addr) (j : Z) :
  let query := String.append (searchQuery (val state)) value in
  let s' := val (fst (reducers.Search σ state value h)) in
  activeItemIndex s' = Some j ->
  activeItemIndex (val state) <> Some j ->
  exists item text,
    nth_Z (items (val state)) j = Some item
    /\ disabled (σ (Item.dataRef (val item))) = false
    /\ textValue (σ (Item.dataRef (val item))) = Some text
    /\ startsWith text query = true
    /\ forall k y, 0 <= k < j -> nth_Z (items (val state)) k = Some y ->
                   reducers.Search_matches σ query y = false.
Proof.
  cbv zeta. unfold reducers.Search.
  set (query := String.append (searchQuery (val state)) value).
  destruct (findIndex_cases (reducers.Search_matches σ query)
              (items (val state))) as [[E _]|(i & x & E & Hl & Hx & Hfirst)];
    rewrite E.
  - cbn. congruence.
  - assert ((Z.of_nat i =? -1) = false) as -> by (apply Z.eqb_neq; lia).
    cbn [orb]. case_bool_decide as Hcur; cbn; [congruence|].
    intros [= <-] _. unfold reducers.Search_matches in Hx.
    apply andb_prop in Hx as [Ht Hd]. apply negb_true_iff in Hd.
    destruct (textValue (σ (Item.dataRef (val x)))) as [text|] eqn:Et;
      [|discriminate].
    exists x, text. rewrite nth_Z_of_nat. repeat split; auto.
    intros k y Hk Hy. apply nth_Z_Some in Hy as [_ Hy].
    apply (Hfirst (Z.to_nat k) y Hy). lia.
Qed.

Lemma Search_moves_only_to_first_enabled_match_witness :
  exists item text,
    nth_Z [itemA; itemB; itemC] 2 = Some item
    /\ disabled (sample_store (Item.dataRef (val item))) = false
    /\ textValue (sample_store (Item.dataRef (val item))) = Some text
    /\ startsWith text "d" = true
    /\ forall k y, 0 <= k < 2 -> nth_Z [itemA; itemB; itemC] k = Some y ->
                   reducers.Search_matches sample_store "d" y = false.
Proof.
  apply (Search_moves_only_to_first_enabled_match sample_store
           (sample MenuStates.Open "" (Some 1)) "d" 5%nat 2).
  - reflexivity.
  - discriminate.
Defined.

Lemma Search_behaviour_witness :
  activeItemIndex
    (val (fst (reducers.Search sample_store
                 (sample MenuStates.Open "" None) "d" 5%nat)))
  = Some 2.
Proof.
  destruct (Search_behaviour sample_store (sample MenuStates.Open "" None)
              "d" 5%nat) as (_ & _ & _ & H).
  apply (H 2%nat itemC); [reflexivity|reflexivity|].
  intros [|[|j]] y Hy Hj; [| |lia]; injection Hy as <-; reflexivity.
Defined.


(** A bag set to disabled behind the reducer's back takes every item that
    holds it out of the search, whatever its text and the query; items with
    another bag match as they did. *)
Theorem disabled_bag_is_out_of_search σ (bag : loc) (query : string)
    (item : Obj Item.t) :
  (Item.dataRef (val item) = bag ->
   reducers.Search_matches (Item_disabled_effect σ bag true) query item = false)
  /\ (Item.dataRef (val item) <> bag ->
      reducers.Search_matches (Item_disabled_effect σ bag true) query item
      = reducers.Search_matches σ query item).
Proof.
  unfold reducers.Search_matches, Item_disabled_effect, write. split.
  - intros ->. rewrite Nat.eqb_refl. cbn.
    destruct (textValue _); [apply andb_false_r|reflexivity].
  - intros Hne. apply Nat.eqb_neq in Hne. by rewrite Hne.
Qed.

Lemma disabled_bag_is_out_of_search_witness :
  reducers.Search_matches (Item_disabled_effect sample_store 12%nat true)
    "ho" itemB = false
  /\ reducers.Search_matches (Item_disabled_effect sample_store 12%nat true)
       "d" itemC = reducers.Search_matches sample_store "d" itemC.
Proof.
  destruct (disabled_bag_is_out_of_search sample_store 12%nat "ho" itemB)
    as [H1 _].
  destruct (disabled_bag_is_out_of_search sample_store 12%nat "d" itemC)
    as [_ H2].
  split; [apply H1; reflexivity|apply H2; cbn; lia].
Defined.

(** Closing an open menu and opening it again gives an open menu with no
    active item; the typed query and the collection are still there. *)
Theorem CloseMenu_then_OpenMenu_forgets_active
    calc σ σ' (state : Obj StateDefinition) (h : addr) :
  menuState (val state) = MenuStates.Open ->
  let s' :=
    val (fst (dispatch_all calc state
                [(σ, ActionTypes.CloseMenu); (σ', ActionTypes.OpenMenu)] h)) in
  menuState s' = MenuStates.Open
  /\ activeItemIndex s' = None
  /\ searchQuery s' = searchQuery (val state)
  /\ items s' = items (val state).
Proof.
  intros Hopen. cbn. unfold bind, reducers.CloseMenu. rewrite Hopen. cbn. done.
Qed.

Lemma CloseMenu_then_OpenMenu_forgets_active_witness :
  let s' :=
    val (fst (dispatch_all (calculateActiveIndex ResultNull)
                (sample MenuStates.Open "ho" (Some 1))
                [(sample_store, ActionTypes.CloseMenu);
                 (sample_store, ActionTypes.OpenMenu)] 5%nat)) in
  menuState s' = MenuStates.Open
  /\ activeItemIndex s' = None
  /\ searchQuery s' = "ho"
  /\ items s' = [itemA; itemB; itemC].
Proof.
  apply (CloseMenu_then_OpenMenu_forgets_active
           (calculateActiveIndex ResultNull) sample_store sample_store
           (sample MenuStates.Open "ho" (Some 1)) 5%nat).
  reflexivity.
Defined.

(** ** The event handlers *)

Ltac split_if :=
  match goal with
  | |- context [if ?b then _ else _] => destruct b eqn:?
  end.

Ltac no_such_effect :=
  rewrite ?elem_of_cons, ?elem_of_nil;
  intros ?; repeat match goal with
                   | H : _ \/ _ |- _ => destruct H
                   | H : False |- _ => destruct H
                   | H : _ = _ |- _ => discriminate H
                   end.



(** The space key pressed while a query is being typed is taken as a typed
    character: the query grows by it and the menu state is kept; the handler
    schedules no clear of the query. *)
Theorem Space_while_searching_extends_query
    (K : Keys.t) calc σ (state : Obj StateDefinition) (h : addr) :
  searchQuery (val state) <> "" ->
  let trace := Items_handleKeyDown K (val state) (Keys.Space K) in
  let s' := after_handler calc σ state trace h in
  trace = [DisposeAll SearchDisposables; PreventDefault;
           Dispatch (ActionTypes.Search (Keys.Space K))]
  /\ searchQuery s' = String.append (searchQuery (val state)) (Keys.Space K)
  /\ menuState s' = menuState (val state).
Proof.
  intros Hq. cbv zeta.
  assert (Items_handleKeyDown K (val state) (Keys.Space K)
          = [DisposeAll SearchDisposables; PreventDefault;
             Dispatch (ActionTypes.Search (Keys.Space K))]) as ->.
  { unfold Items_handleKeyDown. rewrite String.eqb_refl.
    apply String.eqb_neq in Hq. by rewrite Hq. }
  split; [reflexivity|]. unfold after_handler. cbn. unfold bind.
  unfold reducers.Search.
  by destruct ((_ =? -1) || bool_decide _)%bool.
Qed.

Lemma Space_while_searching_extends_query_witness :
  searchQuery
    (after_handler (calculateActiveIndex ResultNull) sample_store
       (sample MenuStates.Open "dine" (Some 2))
       (Items_handleKeyDown dom_keys
          (val (sample MenuStates.Open "dine" (Some 2))) " ") 5%nat)
  = "dine ".
Proof.
  apply (Space_while_searching_extends_query dom_keys
           (calculateActiveIndex ResultNull) sample_store
           (sample MenuStates.Open "dine" (Some 2)) 5%nat).
  discriminate.
Defined.



(** A disabled item never closes the menu, never makes itself the active
    item and never runs its [onClick]: of its four handlers only the focus
    handler dispatches, and what it dispatches is [GoToItem Nothing]. *)
Theorem disabled_Item_never_activates
    (state : StateDefinition) (has_onClick active : bool) (id : string) :
  dispatched (Item_handleClick state true has_onClick) = []
  /\ (OnClick ∉ Item_handleClick state true has_onClick)
  /\ dispatched (Item_handleMove true active id) = []
  /\ dispatched (Item_handleLeave true active) = []
  /\ dispatched (Item_handleFocus true id)
     = [ActionTypes.GoToItem Focus.Nothing].
Proof.
  repeat split. cbn. no_such_effect.
Qed.

(** A click on the button that is not disabled flips the menu state, keeps
    collection and query, and drops the active item when it closes; a click
    on a disabled button dispatches nothing. *)
Theorem Button_handleClick_toggles
    calc σ (state : Obj StateDefinition) (issue7711 : bool) (h : addr) :
  let s' :=
    after_handler calc σ state (Button_handleClick (val state) false false) h in
  menuState s' = match menuState (val state) with
                 | MenuStates.Open => MenuStates.Closed
                 | MenuStates.Closed => MenuStates.Open
                 end
  /\ items s' = items (val state)
  /\ searchQuery s' = searchQuery (val state)
  /\ activeItemIndex s' = match menuState (val state) with
                          | MenuStates.Open => None
                          | MenuStates.Closed => activeItemIndex (val state)
                          end
  /\ dispatched (Button_handleClick (val state) issue7711 true) = []
  /\ dispatched (Button_handleClick (val state) true false) = [].
Proof.
  unfold after_handler, Button_handleClick.
  destruct (menuState (val state)) eqn:E; cbn; unfold bind;
    unfold reducers.CloseMenu, reducers.OpenMenu; rewrite E; cbn;
    by destruct issue7711.
Qed.

(** A pointer press closes the menu exactly when the menu is open and the
    target is in neither the button nor the items container; only then, and
    only when the target cannot take the focus, is the default prevented and
    the focus given to the button.  In every other case nothing happens. *)
Theorem Menu_handler_closes_on_outside_press
    calc σ (state : Obj StateDefinition) (in_button in_items focusable : bool)
    (h : addr) :
  let trace := Menu_handler (val state) in_button in_items focusable in
  let outside :=
    match menuState (val state) with
    | MenuStates.Open => (negb in_button && negb in_items)%bool
    | MenuStates.Closed => false
    end in
  if outside
  then
    menuState (after_handler calc σ state trace h) = MenuStates.Closed
    /\ activeItemIndex (after_handler calc σ state trace h) = None
    /\ trace = Dispatch ActionTypes.CloseMenu
               :: (if focusable then []
                   else [PreventDefault; FocusRef (buttonRef (val state)) false])
  else trace = [] /\ after_handler calc σ state trace h = val state.
Proof.
  unfold after_handler, Menu_handler.
  destruct (menuState (val state)) eqn:E; [|done].
  destruct in_button, in_items; cbn; try done.
  unfold bind, reducers.CloseMenu. rewrite E.
  by destruct focusable.
Qed.

(** A key pressed on the button never closes the menu and never touches the
    query, the collection or the active index while it runs: it dispatches
    nothing, or [OpenMenu] alone, and then defers one [GoToItem], to [First]
    or to [Last]. *)
Theorem Button_handleKeyDown_only_opens
    (K : Keys.t) calc σ (state : Obj StateDefinition) (key : string)
    (h : addr) :
  let trace := Button_handleKeyDown K (val state) key in
  let s' := after_handler calc σ state trace h in
  (trace = [] /\ s' = val state)
  \/ (dispatched trace = [ActionTypes.OpenMenu]
      /\ menuState s' = MenuStates.Open
      /\ items s' = items (val state)
      /\ searchQuery s' = searchQuery (val state)
      /\ activeItemIndex s' = activeItemIndex (val state)
      /\ exists focus,
           (focus = Focus.First \/ focus = Focus.Last)
           /\ trace = [PreventDefault; Dispatch ActionTypes.OpenMenu;
                       NextFrame OwnDisposables
                         [FocusRef (itemsRef (val state)) true;
                          Dispatch (ActionTypes.GoToItem focus)]]).
Proof.
  unfold after_handler, Button_handleKeyDown.
  repeat split_if; [right|right|by left];
    cbn; unfold bind, reducers.OpenMenu;
    (destruct (menuState (val state)) eqn:E; cbn;
     repeat split; eauto).
Qed.

Lemma stateReducer_valid_active_witness :
  valid_active
    (val (fst (menuReducer ResultUnchanged all_disabled_store
                 (sample MenuStates.Open "" (Some 2))
                 (ActionTypes.GoToItem Focus.Next) 5%nat))).
Proof.
  apply (stateReducer_valid_active (calculateActiveIndex ResultUnchanged)
           all_disabled_store (sample MenuStates.Open "" (Some 2))
           (ActionTypes.GoToItem Focus.Next) 5%nat).
  - apply modelled_resolver_answers_in_range.
  - cbn. lia.
Defined.

(** Once the pending clear has run, the next typed value is the whole
    query: the type-ahead starts over. *)
Theorem Search_after_ClearSearch_starts_over
    calc σ σ' (state : Obj StateDefinition) (value : string) (h : addr) :
  let s' :=
    val (fst (dispatch_all calc state
                [(σ, ActionTypes.ClearSearch); (σ', ActionTypes.Search value)]
                h)) in
  searchQuery s' = value
  /\ items s' = items (val state)
  /\ (Forall (fun item => reducers.Search_matches σ' value item = false)
        (items (val state)) ->
      activeItemIndex s' = activeItemIndex (val state)).
Proof.
  cbn. unfold bind.
  destruct (reducers.ClearSearch state h) as [s1 h1] eqn:E.
  assert (searchQuery (val s1) = "" /\ items (val s1) = items (val state)
          /\ activeItemIndex (val s1) = activeItemIndex (val state))
    as (Hq & Hi & Ha).
  { unfold reducers.ClearSearch in E.
    destruct (String.eqb_spec (searchQuery (val state)) "") as [Eq|_];
      injection E as <- <-; cbn; auto. }
  pose proof (Search_fields σ' s1 value h1) as (Hq' & Hi' & _).
  pose proof (Search_no_match_keeps_active σ' s1 value h1) as Hno.
  rewrite Hq in Hq', Hno. cbn in Hq', Hno.
  destruct (reducers.Search σ' s1 value h1) as [s2 h2]. cbn in *.
  rewrite Hq', Hi', Hi. repeat split.
  intros Hall. rewrite <- Ha. apply Hno. by rewrite Hi.
Qed.

Lemma Search_after_ClearSearch_starts_over_witness :
  let s' :=
    val (fst (dispatch_all (calculateActiveIndex ResultNull)
                (sample MenuStates.Open "ho" (Some 1))
                [(sample_store, ActionTypes.ClearSearch);
                 (sample_store, ActionTypes.Search "x")] 5%nat)) in
  searchQuery s' = "x" /\ activeItemIndex s' = Some 1.
Proof.
  destruct (Search_after_ClearSearch_starts_over
              (calculateActiveIndex ResultNull) sample_store sample_store
              (sample MenuStates.Open "ho" (Some 1)) "x" 5%nat)
    as (H1 & _ & H3).
  split; [exact H1|]. apply H3.
  repeat constructor.
Defined.

Lemma disabled_Item_never_activates_witness :
  dispatched (Item_handleClick (val (sample MenuStates.Open "" None)) true true)
  = []
  /\ (OnClick ∉ Item_handleClick (val (sample MenuStates.Open "" None)) true true).
Proof.
  destruct (disabled_Item_never_activates
              (val (sample MenuStates.Open "" None)) true false "A")
    as (H1 & H2 & _).
  split; [exact H1|exact H2].
Defined.
